(** * Fraud dashboard: synthetic ledger and its aggregates

    A shallow embedding of [app.py]: the ledger synthesiser
    [generate_fraud_data] and the aggregates computed from the ledger
    (scalar metrics, daily fraud series, amount distribution, the ten
    highest risk scores shown in the table).

    Conventions of the embedding.
    - A float is read as the rational number it denotes ([Q]); decimal
      literals of the source ([0.3], [0.7], [1.8], ...) are read as exact
      decimals.  Sums and quotients are exact.  Rounding to [d] decimals
      ([.round(d)]) is [rint (x * 10^d) / 10^d] with round-half-to-even.
    - Results of numpy/pandas divisions that may be undefined live in
      [float64], which adds the IEEE values infinity and NaN.
    - Where the last bit of a double decides the outcome (the rounded
      daily rate, the spacing of the timestamps), the operation is written
      with its rounding: [to_float64] rounds a rational to the nearest
      double, ties to even.
    - A timestamp ([datetime64[ns]]) is an integer number of nanoseconds
      since the epoch; a calendar date is a day number.
    - The numpy generator is an interface ([RandomState]): a state type
      with the primitive samplers the program calls.  The program's
      samplers [choice], [uniform] and [random] are written over the
      primitives as numpy defines them. *)

From Stdlib Require Import ZArith QArith Qround Qpower Qabs Lqa Lia List Bool.
From Stdlib Require Import String Ascii DecimalString DecimalNat.
From Stdlib Require Import Sorting.Sorted Sorting.Permutation.
Import ListNotations.

Local Open Scope Z_scope.

(** ** Numbers *)

Definition Qgtb (x y : Q) : bool := negb (Qle_bool x y).

(** [numpy.rint]: nearest integer, halves to the even neighbour. *)
Definition rint (x : Q) : Z :=
  let f := Qfloor x in
  match (x - inject_Z f ?= 1 # 2)%Q with
  | Lt => f
  | Gt => f + 1
  | Eq => if Z.even f then f else f + 1
  end.

Definition pow10 (d : nat) : positive := Pos.pow 10 (Pos.of_nat d).

(** [x.round(d)] for [d >= 1]. *)
Definition np_round (d : nat) (x : Q) : Q :=
  rint (x * inject_Z (Zpos (pow10 d))) # pow10 d.

(** *** Doubles *)

Definition pow2 (e : Z) : Q := (2 ^ e)%Q.

(** The binary exponent of a positive rational: [2^e <= x < 2^(e+1)]. *)
Definition ilog2 (x : Q) : Z :=
  let l := Z.log2 (Qnum x) - Z.log2 (Zpos (Qden x)) in
  if Qle_bool (pow2 l) x then l else l - 1.

(** Exponent of the unit in the last place of the doubles around a
    positive [x]: 53 significant bits, subnormals below [2^-1022]. *)
Definition ulp_exponent (x : Q) : Z := Z.max (ilog2 x - 52) (-1074).

Definition round_pos (x : Q) : Q :=
  inject_Z (rint (x / pow2 (ulp_exponent x))) * pow2 (ulp_exponent x).

(** The double nearest to [x], ties to the even significand.  Magnitudes
    of [2^1024] and more, which a double rounds to an infinity, are not
    distinguished; none arises from the quantities of this program. *)
Definition to_float64 (x : Q) : Q :=
  match (x ?= 0)%Q with
  | Eq => 0%Q
  | Gt => Qred (round_pos x)
  | Lt => Qred (- round_pos (- x))
  end.

(** IEEE double results: a rational, an infinity or NaN. *)
Inductive float64 : Type :=
| Finite (q : Q)
| Inf (negative : bool)
| NaN.

(** [a / b] where [a] is a numpy integer scalar: true division, which
    yields NaN or an infinity (and a warning) on a zero divisor instead of
    raising. *)
Definition np_true_divide (a b : Z) : float64 :=
  if b =? 0 then
    if a =? 0 then NaN else Inf (a <? 0)
  else Finite (inject_Z a / inject_Z b).

Definition float64_mul (x : float64) (k : Q) : float64 :=
  match x with
  | Finite q => Finite (q * k)
  | Inf s => match (k ?= 0)%Q with
             | Eq => NaN
             | Gt => Inf s
             | Lt => Inf (negb s)
             end
  | NaN => NaN
  end.

(** Equality of doubles as values: rationals up to [Qeq]. *)
Definition float64_eq (x y : float64) : Prop :=
  match x, y with
  | Finite a, Finite b => (a == b)%Q
  | Inf s, Inf t => s = t
  | NaN, NaN => True
  | _, _ => False
  end.

(** Element-wise operations on a column of doubles, each rounded as the
    hardware rounds it. *)

(** [a / b] on integer columns: both sides become doubles, then divide. *)
Definition series_true_divide (a b : Z) : float64 :=
  if b =? 0 then
    if a =? 0 then NaN else Inf (a <? 0)
  else Finite (to_float64 (to_float64 (inject_Z a) / to_float64 (inject_Z b))).

(** [x * k] for a positive integer constant [k]. *)
Definition series_mul (x : float64) (k : positive) : float64 :=
  match x with
  | Finite q => Finite (to_float64 (q * inject_Z (Zpos k)))
  | other => other
  end.

(** [x.round(d)] as numpy computes it: multiply by [10^d], [rint], divide
    by [10^d]. *)
Definition series_round (d : nat) (x : float64) : float64 :=
  match x with
  | Finite q =>
      Finite (to_float64
                (inject_Z (rint (to_float64 (q * inject_Z (Zpos (pow10 d)))))
                 / inject_Z (Zpos (pow10 d))))
  | other => other
  end.

(** ** The ledger *)

Inductive Merchant := AMAZON | GOOGLE | APPLE | NETFLIX | UBER | UNKNOWN | PAYPAL.
Inductive Country := US | UK | DE | FR | IN | BR.

Definition Merchant_eqb (a b : Merchant) : bool :=
  match a, b with
  | AMAZON, AMAZON | GOOGLE, GOOGLE | APPLE, APPLE | NETFLIX, NETFLIX
  | UBER, UBER | UNKNOWN, UNKNOWN | PAYPAL, PAYPAL => true
  | _, _ => false
  end.

Definition Country_eqb (a b : Country) : bool :=
  match a, b with
  | US, US | UK, UK | DE, DE | FR, FR | IN, IN | BR, BR => true
  | _, _ => false
  end.

(** [c.isin(l)] *)
Definition isin (c : Country) (l : list Country) : bool :=
  existsb (Country_eqb c) l.

(** One row of the data frame.  [date] is the full timestamp. *)
Record Transaction : Type := mkTransaction {
  transaction_id : string;
  date : Z;
  amount : Q;
  merchant : Merchant;
  country : Country;
  user_id : string;
  is_fraud : bool;
  risk_score : Q
}.

Definition DataFrame := list Transaction.

(** ** String formatting *)

Definition decimal (n : nat) : string := NilZero.string_of_uint (Nat.to_uint n).

Fixpoint zeros (k : nat) : string :=
  match k with
  | O => EmptyString
  | S k' => String "0" (zeros k')
  end.

(** [f"{i:0wd}"]: left-padded with zeros to width [w], never truncated. *)
Definition zero_padded (w i : nat) : string :=
  let s := decimal i in
  (zeros (w - String.length s) ++ s)%string.

Definition format_transaction_id (i : nat) : string :=
  ("TX" ++ zero_padded 8 i)%string.

Definition format_int (z : Z) : string :=
  if z <? 0 then ("-" ++ decimal (Z.to_nat (- z)))%string
  else decimal (Z.to_nat z).

Definition format_user_id (k : Z) : string := ("USER" ++ format_int k)%string.

(** ** Errors *)

Inductive exn := ValueError.

Inductive result (A : Type) : Type :=
| Ok (a : A)
| Raise (e : exn).
Arguments Ok {A} a.
Arguments Raise {A} e.

(** ** Timestamps *)

Definition ns_per_day : Z := 86400 * 1000000000.

(** [timedelta(days=k)] in nanoseconds. *)
Definition timedelta_days (k : Z) : Z := k * ns_per_day.

(** The two readings of [datetime.now()] taken on line 20, in evaluation
    order: the first for [start], the second for [end]. *)
Record clock : Type := mkClock { now_start : Z; now_end : Z }.

(** The grid of [numpy.linspace(0, span, num, dtype="int64")] without
    rounding error: [num] points from [0] to [span], end point included,
    point [i] the integer part of [i * span / (num - 1)].  A single point
    is [0].  A negative [num] raises [ValueError].  The ledger is built on
    this grid; [linspace_float64] below gives the points to the last
    nanosecond, and the two agree at both ends and within 3 ns in
    between. *)
Definition linspace (span : Z) (num : Z) : result (list Z) :=
  if num <? 0 then Raise ValueError
  else
    let n := Z.to_nat num in
    Ok (map (fun i => if num =? 1 then 0 else Z.of_nat i * span / (num - 1))
            (seq 0 n)).

(** [pd.date_range(start=s, end=e, periods=n)] with no frequency: linearly
    spaced timestamps. *)
Definition date_range (s e : Z) (periods : Z) : result (list Z) :=
  match linspace (e - s) periods with
  | Ok l => Ok (map (fun x => x + s) l)
  | Raise err => Raise err
  end.

(** Point [i] of [numpy.linspace(0, span, num, dtype="int64")] as numpy
    computes it, in doubles: [delta] is [span] as a double, [step] is
    [delta / (num - 1)], the point is [i * step] (or
    [(i / (num - 1)) * delta] when the step rounds to zero), the last
    point is set to [span] itself, and the point is floored.  A single
    point is [0]. *)
Definition linspace_point (span num : Z) (i : nat) : Z :=
  let delta := to_float64 (inject_Z span) in
  let div := to_float64 (inject_Z (num - 1)) in
  let step := to_float64 (delta / div) in
  let fi := to_float64 (inject_Z (Z.of_nat i)) in
  if num =? 1 then 0
  else if Z.of_nat i =? num - 1 then Qfloor delta
  else if Qeq_bool step 0
       then Qfloor (to_float64 (to_float64 (fi / div) * delta))
       else Qfloor (to_float64 (fi * step)).

Definition linspace_float64 (span : Z) (num : Z) : result (list Z) :=
  if num <? 0 then Raise ValueError
  else Ok (map (linspace_point span num) (seq 0 (Z.to_nat num))).

(** [pd.date_range(start=s, end=e, periods=n)] with the points of
    [linspace_float64]. *)
Definition date_range_float64 (s e : Z) (periods : Z) : result (list Z) :=
  match linspace_float64 (e - s) periods with
  | Ok l => Ok (map (fun x => x + s) l)
  | Raise err => Raise err
  end.

(** [ts.date()]: the calendar day of a timestamp. *)
Definition dt_date (ts : Z) : Z := ts / ns_per_day.

(** ** The random generator *)

(** The primitive samplers of numpy's global generator over a state
    type [G]. *)
Class RandomState (G : Type) : Type := {
  rs_seed : Z -> G;
  rs_random_sample : G -> Q * G;
  rs_lognormal : Q -> Q -> G -> Q * G;
  rs_randint : Z -> Z -> G -> Z * G
}.

(** What the samplers guarantee about the values they return. *)
Class RandomStateOk (G : Type) `{RandomState G} : Prop := {
  random_sample_range :
    forall g, (0 <= fst (rs_random_sample g) /\ fst (rs_random_sample g) < 1)%Q;
  lognormal_nonneg :
    forall mu sigma g, (0 <= fst (rs_lognormal mu sigma g))%Q;
  randint_range :
    forall lo hi g, lo < hi ->
      lo <= fst (rs_randint lo hi g) < hi
}.

(** Computations that thread the generator state. *)
Definition Rand (G A : Type) : Type := G -> A * G.

Definition ret {G A} (a : A) : Rand G A := fun g => (a, g).

Definition bind {G A B} (m : Rand G A) (k : A -> Rand G B) : Rand G B :=
  fun g => let (a, g') := m g in k a g'.

Declare Scope rand_scope.
Delimit Scope rand_scope with rand.
Notation "x <- m ;; k" := (bind m (fun x => k))
  (at level 61, m at next level, right associativity) : rand_scope.

(** [size=n]: [n] successive draws. *)
Fixpoint replicateM {G A} (n : nat) (m : Rand G A) : Rand G (list A) :=
  match n with
  | O => ret []
  | S n' => (x <- m ;; xs <- replicateM n' m ;; ret (x :: xs))%rand
  end.

Fixpoint cumsum_from (acc : Q) (p : list Q) : list Q :=
  match p with
  | [] => []
  | x :: xs =>
      let a := to_float64 (acc + to_float64 x) in
      a :: cumsum_from a xs
  end.

(** [p.cumsum()] on an array of doubles: every partial sum is rounded. *)
Definition cumsum (p : list Q) : list Q := cumsum_from 0%Q p.

(** [cdf /= cdf[-1]] *)
Definition normalise (cdf : list Q) : list Q :=
  map (fun c => to_float64 (c / last cdf 1%Q)) cdf.

(** [cdf.searchsorted(u, side="right")] on an ascending [cdf]. *)
Fixpoint searchsorted_right (cdf : list Q) (u : Q) : nat :=
  match cdf with
  | [] => O
  | c :: cs => if Qle_bool c u then S (searchsorted_right cs u) else O
  end.

Section Samplers.
Context {G : Type} `{RandomState G}.

Definition np_random_random (n : nat) : Rand G (list Q) :=
  replicateM n rs_random_sample.

(** [uniform(low, high)] is [low + (high - low) * random_sample()]. *)
Definition uniform1 (low high : Q) : Rand G Q :=
  (u <- rs_random_sample ;; ret (low + (high - low) * u)%Q)%rand.

Definition np_random_uniform (low high : Q) (n : nat) : Rand G (list Q) :=
  replicateM n (uniform1 low high).

Definition np_random_lognormal (mean sigma : Q) (n : nat) : Rand G (list Q) :=
  replicateM n (rs_lognormal mean sigma).

Definition np_random_randint (low high : Z) : Rand G Z :=
  rs_randint low high.

(** [choice(a, n, p=p)]: inverse-CDF lookup of a uniform sample.  [d] is
    the first entry of [a]. *)
Definition np_random_choice_p {A} (d : A) (a : list A) (n : nat) (p : list Q)
  : Rand G (list A) :=
  replicateM n
    (u <- rs_random_sample ;;
     ret (nth (searchsorted_right (normalise (cumsum p)) u) a d))%rand.

(** [choice(a, n)]: a uniform index below [len(a)]. *)
Definition np_random_choice {A} (d : A) (a : list A) (n : nat)
  : Rand G (list A) :=
  replicateM n
    (k <- rs_randint 0 (Z.of_nat (List.length a)) ;;
     ret (nth (Z.to_nat k) a d))%rand.
End Samplers.

(** ** The synthesiser *)

Definition merchants : list Merchant :=
  [AMAZON; GOOGLE; APPLE; NETFLIX; UBER; UNKNOWN; PAYPAL].

Definition merchant_p : list Q :=
  [3 # 10; 2 # 10; 15 # 100; 1 # 10; 1 # 10; 5 # 100; 1 # 10]%Q.

Definition countries : list Country := [US; UK; DE; FR; IN; BR].

(** [s.between(lo, hi)], both ends included. *)
Definition between (x lo hi : Q) : bool := Qle_bool lo x && Qle_bool x hi.

(** Lines 31-35. *)
Definition fraud_conditions (a : Q) (m : Merchant) (c : Country) : bool :=
  Qgtb a 10000
  || Merchant_eqb m UNKNOWN
  || (between a 5000 10000 && isin c [IN; BR]).

Definition eligible (r : Transaction) : bool :=
  fraud_conditions (amount r) (merchant r) (country r).

(** The raw columns drawn from the generator, in the order the program
    draws them. *)
Record Draws : Type := mkDraws {
  raw_amount : list Q;
  raw_merchant : list Merchant;
  raw_country : list Country;
  raw_user : list Z;
  raw_label : list Q;
  raw_high : list Q;
  raw_low : list Q
}.

Section Synthesiser.
Context {G : Type} `{RandomState G}.

Definition draw_columns (n : nat) : Rand G Draws :=
  (a <- np_random_lognormal 4 (18 # 10) n ;;
   m <- np_random_choice_p AMAZON merchants n merchant_p ;;
   c <- np_random_choice US countries n ;;
   u <- replicateM n (np_random_randint 1000 9999) ;;
   l <- np_random_random n ;;
   hi <- np_random_uniform (7 # 10) 1 n ;;
   lo <- np_random_uniform 0 (6 # 10) n ;;
   ret (mkDraws a m c u l hi lo))%rand.

(** The columns drawn after [np.random.seed(42)]. *)
Definition columns (n : nat) : Draws := fst (draw_columns n (rs_seed 42)).

(** Row [i] of the frame assembled from the columns. *)
Definition row_at (dates : list Z) (d : Draws) (i : nat) : Transaction :=
  let a := np_round 2 (nth i (raw_amount d) 0%Q) in
  let m := nth i (raw_merchant d) AMAZON in
  let c := nth i (raw_country d) US in
  let f := fraud_conditions a m c && Qgtb (nth i (raw_label d) 0%Q) (3 # 10) in
  let s := np_round 3 (if f then nth i (raw_high d) 0%Q
                       else nth i (raw_low d) 0%Q) in
  mkTransaction (format_transaction_id i) (nth i dates 0) a m c
                (format_user_id (nth i (raw_user d) 0)) f s.

Definition generate_fraud_data (clk : clock) (n : Z) : result DataFrame :=
  match date_range (now_start clk - timedelta_days 30) (now_end clk) n with
  | Raise e => Raise e
  | Ok dates =>
      let d := columns (Z.to_nat n) in
      Ok (map (row_at dates d) (seq 0 (Z.to_nat n)))
  end.

End Synthesiser.

(** ** The aggregates *)

(** [s.sum()] on a float column: accumulation from [0.0]. *)
Definition Series_sum (l : list Q) : Q := fold_left Qplus l 0%Q.

(** [s.sum()] on a boolean column: [True] counts 1. *)
Definition bool_sum (l : list bool) : Z :=
  fold_left (fun acc b => acc + Z.b2z b) l 0.

(** [s.mean()]: NaN on an empty column. *)
Definition Series_mean (l : list Q) : float64 :=
  match l with
  | [] => NaN
  | _ :: _ => Finite (Series_sum l / inject_Z (Z.of_nat (List.length l)))
  end.

(** Lines 50-54 and the mean of line 79. *)
Definition total_amount (df : DataFrame) : Q := Series_sum (map amount df).
Definition total_transactions (df : DataFrame) : Z := Z.of_nat (List.length df).
Definition fraud_transactions (df : DataFrame) : Z := bool_sum (map is_fraud df).
Definition fraud_amount (df : DataFrame) : Q :=
  Series_sum (map amount (filter is_fraud df)).
Definition fraud_rate (df : DataFrame) : float64 :=
  float64_mul (np_true_divide (fraud_transactions df) (total_transactions df)) 100.
Definition mean_amount (df : DataFrame) : float64 :=
  Series_mean (map amount df).

(** *** Daily series (lines 57-58) *)

(** One row of [daily_fraud]; the count column keeps the name
    [transaction_id] and the sum column the name [is_fraud] in the source. *)
Record DailyRow : Type := mkDailyRow {
  daily_date : Z;
  daily_transaction_id : Z;
  daily_is_fraud : Z;
  daily_fraud_rate : float64
}.

Fixpoint insert_key (k : Z) (ks : list Z) : list Z :=
  match ks with
  | [] => [k]
  | x :: xs =>
      if k <? x then k :: ks
      else if k =? x then ks
      else x :: insert_key k xs
  end.

(** The group keys of a [groupby]: the distinct keys in ascending order. *)
Definition group_keys (ks : list Z) : list Z := fold_right insert_key [] ks.

Definition on_day (k : Z) (r : Transaction) : bool := dt_date (date r) =? k.

(** [df.groupby(df["date"].dt.date).agg({"transaction_id": "count",
    "is_fraud": "sum"}).reset_index()] followed by the [fraud_rate]
    column. *)
Definition daily_fraud (df : DataFrame) : list DailyRow :=
  map (fun k =>
         let g := filter (on_day k) df in
         let cnt := Z.of_nat (List.length (map transaction_id g)) in
         let frd := bool_sum (map is_fraud g) in
         mkDailyRow k cnt frd
           (series_round 2 (series_mul (series_true_divide frd cnt) 100)))
      (group_keys (map (fun r => dt_date (date r)) df)).

(** *** Amount distribution (lines 65-66) *)

Definition legit_rows (df : DataFrame) : DataFrame :=
  filter (fun r => negb (is_fraud r)) df.
Definition fraud_rows (df : DataFrame) : DataFrame := filter is_fraud df.

Definition legit_amounts (df : DataFrame) : list Q := map amount (legit_rows df).
Definition fraud_amounts (df : DataFrame) : list Q := map amount (fraud_rows df).

(** *** Highest risk scores (lines 86-92) *)

(** A row together with its position in the frame (the frame's index). *)
Definition Indexed : Type := nat * Transaction.

Definition score (x : Indexed) : Q := risk_score (snd x).

Definition with_index (df : DataFrame) : list Indexed :=
  combine (seq 0 (List.length df)) df.

Fixpoint insert_desc (x : Indexed) (l : list Indexed) : list Indexed :=
  match l with
  | [] => [x]
  | y :: ys =>
      if Qgtb (score y) (score x) then y :: insert_desc x ys
      else x :: l
  end.

(** Stable sort by descending [risk_score]. *)
Definition sort_desc (l : list Indexed) : list Indexed :=
  fold_right insert_desc [] l.

(** [df.nlargest(k, "risk_score")] with the default [keep="first"]. *)
Definition nlargest (k : nat) (df : DataFrame) : list Indexed :=
  firstn k (sort_desc (with_index df)).

Inductive Cell : Type :=
| CStr (s : string)
| CTime (t : Z)
| CNum (q : Q)
| CBool (b : bool).

Definition Merchant_name (m : Merchant) : string :=
  match m with
  | AMAZON => "AMAZON" | GOOGLE => "GOOGLE" | APPLE => "APPLE"
  | NETFLIX => "NETFLIX" | UBER => "UBER" | UNKNOWN => "UNKNOWN"
  | PAYPAL => "PAYPAL"
  end.

Definition Country_name (c : Country) : string :=
  match c with
  | US => "US" | UK => "UK" | DE => "DE" | FR => "FR" | IN => "IN" | BR => "BR"
  end.

(** One entry of [to_dict("records")]: every column of the frame. *)
Definition to_dict (r : Transaction) : list (string * Cell) :=
  [ ("transaction_id", CStr (transaction_id r));
    ("date", CTime (date r));
    ("amount", CNum (amount r));
    ("merchant", CStr (Merchant_name (merchant r)));
    ("country", CStr (Country_name (country r)));
    ("user_id", CStr (user_id r));
    ("is_fraud", CBool (is_fraud r));
    ("risk_score", CNum (risk_score r)) ]%string.

Fixpoint dict_get (k : string) (d : list (string * Cell)) : option Cell :=
  match d with
  | [] => None
  | (k', v) :: d' => if String.eqb k k' then Some v else dict_get k d'
  end.

(** Line 87: the ids of the columns the table declares (each column's
    name is its id). *)
Definition table_columns : list string :=
  [ "date"; "transaction_id"; "amount"; "merchant"; "risk_score"; "is_fraud" ]%string.

(** Line 88: the records handed to the table as its [data]. *)
Definition high_risk_table (df : DataFrame) : list (list (string * Cell)) :=
  map (fun x => to_dict (snd x)) (nlargest 10 df).

(** ** A small concrete generator

    A linear congruential generator that implements the [RandomState]
    interface; it is used to run the synthesiser on concrete inputs. *)
Module Lcg.
Definition modulus : Z := 2147483648.

Definition next (g : Z) : Z := (g * 1103515245 + 12345) mod modulus.

Definition bits (g : Z) : Z := (g mod modulus) / 256.

Definition random_sample (g : Z) : Q * Z :=
  ((g mod modulus) # 2147483648, next g).

Definition lognormal (mu sigma : Q) (g : Z) : Q * Z :=
  ((bits g mod 3000000) # 100, next g).

Definition randint (lo hi : Z) (g : Z) : Z * Z :=
  (lo + bits g mod (hi - lo), next g).

Definition seed (s : Z) : Z := next (s mod modulus).
End Lcg.

#[export] Instance Lcg_RandomState : RandomState Z := {
  rs_seed := Lcg.seed;
  rs_random_sample := Lcg.random_sample;
  rs_lognormal := Lcg.lognormal;
  rs_randint := Lcg.randint
}.

(** ** The program as a whole *)

(** Everything the module computes from the ledger. *)
Record Dashboard : Type := mkDashboard {
  shown_total_amount : Q;
  shown_total_transactions : Z;
  shown_fraud_transactions : Z;
  shown_fraud_amount : Q;
  shown_fraud_rate : float64;
  shown_mean_amount : float64;
  shown_daily_fraud : list DailyRow;
  shown_legit_amounts : list Q;
  shown_fraud_amounts : list Q;
  shown_table : list (list (string * Cell))
}.

Definition aggregate (df : DataFrame) : Dashboard :=
  mkDashboard (total_amount df) (total_transactions df) (fraud_transactions df)
              (fraud_amount df) (fraud_rate df) (mean_amount df)
              (daily_fraud df) (legit_amounts df) (fraud_amounts df)
              (high_risk_table df).

(** Lines 47-94 for a ledger of [n] rows (the module fixes [n = 500]):
    generate, then aggregate whatever was generated. *)
Definition dashboard {G : Type} `{RandomState G} (clk : clock) (n : Z)
  : result Dashboard :=
  match generate_fraud_data clk n with
  | Ok df => Ok (aggregate df)
  | Raise e => Raise e
  end.

(** ** Vocabulary of the properties *)

Definition is_rejected {A} (x : result A) : bool :=
  match x with
  | Ok _ => false
  | Raise _ => true
  end.

Definition result_map {A B} (f : A -> B) (x : result A) : result B :=
  match x with
  | Ok a => Ok (f a)
  | Raise e => Raise e
  end.

(** A record without its timestamp. *)
Definition undated (r : Transaction)
  : string * Q * Merchant * Country * string * bool * Q :=
  (transaction_id r, amount r, merchant r, country r, user_id r,
   is_fraud r, risk_score r).

Definition Zsum (l : list Z) : Z := fold_right Z.add 0 l.

Fixpoint Qsum (l : list Q) : Q :=
  match l with
  | [] => 0%Q
  | x :: xs => (x + Qsum xs)%Q
  end.

(** Sum of [f] over the rows that satisfy [p]. *)
Fixpoint Qsum_where (p : Transaction -> bool) (f : Transaction -> Q)
         (df : DataFrame) : Q :=
  match df with
  | [] => 0%Q
  | r :: rest => if p r then (f r + Qsum_where p f rest)%Q else Qsum_where p f rest
  end.

(** Number of rows that satisfy [p]. *)
Definition count_where (p : Transaction -> bool) (df : DataFrame) : Z :=
  Z.of_nat (List.length (filter p df)).




(** [x] is ranked before [y]: a higher risk score, or the same risk score
    and an earlier position in the ledger. *)
Definition ranked_before (x y : Indexed) : Prop :=
  (risk_score (snd y) < risk_score (snd x))%Q
  \/ ((risk_score (snd x) == risk_score (snd y))%Q /\ (fst x < fst y)%nat).

(** The keys of a record of the frame, in the order of its columns
    (lines 22-42). *)
Definition frame_columns : list string :=
  [ "transaction_id"; "date"; "amount"; "merchant"; "country"; "user_id";
    "is_fraud"; "risk_score" ]%string.

(** The window the timestamps span: it opens 30 days before the first
    clock reading and closes at the second. *)
Definition window_start (clk : clock) : Z := now_start clk - timedelta_days 30.
Definition window_span (clk : clock) : Z := now_end clk - window_start clk.

(** Line 20: the timestamps of a run, to the last nanosecond. *)
Definition dates (clk : clock) (n : Z) : result (list Z) :=
  date_range_float64 (window_start clk) (now_end clk) n.

(** Where an even spacing puts timestamp [i], counted from the window
    start: [i * span / (n - 1)]. *)
Definition even_offset (clk : clock) (n : Z) (i : nat) : Q :=
  inject_Z (Z.of_nat i) * inject_Z (window_span clk) / inject_Z (n - 1).

(** The claimed spacing of timestamps: every step is exactly 30 days
    divided by [n - 1]. *)
Definition constant_step_30_days (n : Z) (ts : list Z) : Prop :=
  forall i, (i + 1 < Z.to_nat n)%nat ->
    (nth (i + 1) ts 0 - nth i ts 0) * (n - 1) = timedelta_days 30.

(** The ledger the concrete generator yields for twelve rows with both
    clock readings at the epoch. *)
Definition sample_clock : clock := mkClock 0 0.

Definition sample_ledger : DataFrame :=
  match generate_fraud_data sample_clock 12 with
  | Ok df => df
  | Raise _ => []
  end.

Definition blank : Transaction :=
  mkTransaction "" 0 0 AMAZON US "" false 0.

(** ** The cards of the layout *)

(** Digits in groups of three, separated by commas, on a numeral written
    with its last digit first. *)
Fixpoint group3 (l : list ascii) : list ascii :=
  match l with
  | a :: b :: c :: rest =>
      match rest with
      | [] => l
      | _ :: _ => a :: b :: c :: ","%char :: group3 rest
      end
  | _ => l
  end.

(** [f"{n:,}"] for a non-negative count: the decimal numeral with a comma
    between groups of three digits, counted from the right (line 75). *)
Definition format_thousands (n : nat) : string :=
  string_of_list_ascii (rev (group3 (rev (list_ascii_of_string (decimal n))))).

(** The text of the transactions card. *)
Definition transactions_card (df : DataFrame) : string :=
  format_thousands (Z.to_nat (total_transactions df)).

(** A numeral without its separators. *)
Definition strip_commas (s : string) : string :=
  string_of_list_ascii
    (filter (fun c => negb (Ascii.eqb c ","%char)) (list_ascii_of_string s)).

(** ** Vocabulary of the further properties *)

(** Reads a decimal numeral, leading zeros allowed. *)
Definition read_decimal (s : string) : option nat :=
  option_map Nat.of_uint (NilEmpty.uint_of_string s).

(** Reads back the ordinal of a transaction id. *)
Definition read_transaction_id (s : string) : option nat :=
  match s with
  | String "T" (String "X" digits) => read_decimal digits
  | _ => None
  end.

(** In a ranking, no fraudulent row comes after a legitimate one. *)
Definition legit_stays_legit (x y : Indexed) : Prop :=
  is_fraud (snd x) = false -> is_fraud (snd y) = false.

(** What a finite double in a range looks like. *)
Definition finite_between (lo hi : Q) (x : float64) : Prop :=
  match x with
  | Finite q => (lo <= q /\ q <= hi)%Q
  | _ => False
  end.

(** * Evaluation on concrete inputs *)

Example rint_half_down : rint (5 # 2) = 2.
Proof. reflexivity. Qed.

Example rint_half_up : rint (7 # 2) = 4.
Proof. reflexivity. Qed.

Example np_round_cents : np_round 2 (1234567 # 100000) = (1235 # 100)%Q.
Proof. reflexivity. Qed.

Example transaction_id_7 : format_transaction_id 7 = "TX00000007"%string.
Proof. reflexivity. Qed.

Example date_range_three : date_range 10 20 3 = Ok [10; 15; 20].
Proof. reflexivity. Qed.

Example date_range_single : date_range 10 20 1 = Ok [10].
Proof. reflexivity. Qed.

Example date_range_negative : date_range 10 20 (-1) = Raise ValueError.
Proof. reflexivity. Qed.

(** Eight timestamps over 30 days, in doubles: rows 3 and 6 come out one
    nanosecond above the integer part of the exact quotient. *)
Example date_range_float64_eight :
  date_range_float64 (- timedelta_days 30) 0 8
  = Ok [-2592000000000000; -2221714285714286; -1851428571428572;
        -1481142857142857; -1110857142857143; -740571428571429;
        -370285714285714; 0].
Proof. vm_compute. reflexivity. Qed.

Example date_range_eight :
  date_range (- timedelta_days 30) 0 8
  = Ok [-2592000000000000; -2221714285714286; -1851428571428572;
        -1481142857142858; -1110857142857143; -740571428571429;
        -370285714285715; 0].
Proof. vm_compute. reflexivity. Qed.

Example large_amount_is_eligible : fraud_conditions 20000 AMAZON US = true.
Proof. reflexivity. Qed.

Example mid_amount_needs_country :
  fraud_conditions 5000 AMAZON BR = true /\ fraud_conditions 5000 AMAZON US = false.
Proof. split; reflexivity. Qed.

Example unknown_merchant_is_eligible : fraud_conditions 1 UNKNOWN US = true.
Proof. reflexivity. Qed.

(** The inverse-CDF lookup of line 26 on a few samples.  The fifth
    partial sum of the weights is the double just below 0.85, so a sample
    equal to that double already falls to UNKNOWN. *)
Example merchant_lookup :
  map (fun u => nth (searchsorted_right (normalise (cumsum merchant_p)) u)
                    merchants AMAZON)
      [0; 3 # 10; to_float64 (85 # 100); 86 # 100; 899 # 1000; 999 # 1000]%Q
  = [AMAZON; GOOGLE; UNKNOWN; UNKNOWN; UNKNOWN; PAYPAL].
Proof. vm_compute. reflexivity. Qed.

(** Three rows on two days; the two rows of equal score keep their ledger
    order in the ranking. *)
Definition three_rows : DataFrame :=
  [ mkTransaction "TX00000000" 5 (10 # 1) AMAZON US "USER1000" false (5 # 10);
    mkTransaction "TX00000001" (ns_per_day + 1) (20000 # 1) UBER US "USER1001" true (9 # 10);
    mkTransaction "TX00000002" (ns_per_day + 2) (30 # 1) APPLE UK "USER1002" false (5 # 10) ].

Example three_rows_daily :
  daily_fraud three_rows
  = [ mkDailyRow 0 1 0 (Finite 0); mkDailyRow 1 2 1 (Finite 50) ].
Proof. vm_compute. reflexivity. Qed.

(** The double nearest to one tenth. *)
Example to_float64_tenth :
  to_float64 (1 # 10) = (3602879701896397 # 36028797018963968)%Q.
Proof. vm_compute. reflexivity. Qed.

(** 23 frauds among 160 records: the quotient times 100 is the double just
    below 14.375, so the rate rounds down to 14.37, where exact arithmetic
    would meet a tie and give 14.38. *)
Example rate_23_of_160 :
  series_round 2 (series_mul (series_true_divide 23 160) 100)
  = Finite (to_float64 (1437 # 100)).
Proof. vm_compute. reflexivity. Qed.

Example three_rows_ranking : map fst (nlargest 10 three_rows) = [1; 0; 2]%nat.
Proof. reflexivity. Qed.

Example three_rows_top_one : map fst (nlargest 1 three_rows) = [1]%nat.
Proof. reflexivity. Qed.

Example thousands_1234567 :
  format_thousands (Z.to_nat 1234567) = "1,234,567"%string.
Proof. vm_compute. reflexivity. Qed.

Example thousands_1000 : format_thousands (Z.to_nat 1000) = "1,000"%string.
Proof. vm_compute. reflexivity. Qed.

Example thousands_0 : format_thousands 0 = "0"%string.
Proof. vm_compute. reflexivity. Qed.

Example sample_ledger_size : List.length sample_ledger = 12%nat.
Proof. vm_compute. reflexivity. Qed.

#[export] Instance Lcg_RandomStateOk : RandomStateOk Z.
Proof.
  split.
  - intros g. cbn [rs_random_sample Lcg_RandomState Lcg.random_sample fst].
    pose proof (Z.mod_pos_bound g Lcg.modulus eq_refl) as Hb.
    unfold Lcg.modulus in *. unfold Qle, Qlt. cbn [Qnum Qden]. lia.
  - intros mu sigma g. cbn [rs_lognormal Lcg_RandomState Lcg.lognormal fst].
    pose proof (Z.mod_pos_bound (Lcg.bits g) 3000000 eq_refl) as Hb.
    unfold Qle. cbn [Qnum Qden]. lia.
  - intros lo hi g Hlt. cbn [rs_randint Lcg_RandomState Lcg.randint fst].
    pose proof (Z.mod_pos_bound (Lcg.bits g) (hi - lo)) as Hb. lia.
Qed.

(** * Properties *)

(** ** Comparisons *)

Lemma Qle_bool_false (x y : Q) : Qle_bool x y = false -> (y < x)%Q.
Proof.
  intros Hb. apply Qnot_le_lt. intros Hle.
  apply Qle_bool_iff in Hle. congruence.
Qed.

Lemma Qgtb_true (x y : Q) : Qgtb x y = true -> (y < x)%Q.
Proof.
  unfold Qgtb. intros Hb. apply Qle_bool_false.
  now destruct (Qle_bool x y).
Qed.

Lemma Qgtb_false (x y : Q) : Qgtb x y = false -> (x <= y)%Q.
Proof.
  unfold Qgtb. intros Hb. apply Qle_bool_iff.
  now destruct (Qle_bool x y).
Qed.

(** ** Rounding *)

Lemma rint_floor_le (x : Q) : Qfloor x <= rint x.
Proof.
  unfold rint. destruct (Qcompare _ _); [destruct (Z.even _)| |]; lia.
Qed.

Lemma rint_ge (a : Z) (x : Q) : (inject_Z a <= x)%Q -> a <= rint x.
Proof.
  intros Hax.
  pose proof (Qfloor_resp_le _ _ Hax) as Hf. rewrite Qfloor_Z in Hf.
  pose proof (rint_floor_le x). lia.
Qed.

Lemma rint_le (b : Z) (x : Q) : (x <= inject_Z b)%Q -> rint x <= b.
Proof.
  intros Hxb.
  pose proof (Qfloor_resp_le _ _ Hxb) as Hf. rewrite Qfloor_Z in Hf.
  destruct (Z.eq_dec (Qfloor x) b) as [Heq | Hne].
  - unfold rint.
    assert (Hlt : (x - inject_Z (Qfloor x) < 1 # 2)%Q).
    { pose proof (Qfloor_le x) as Hfl. rewrite Heq in *. lra. }
    rewrite Qlt_alt in Hlt. rewrite Hlt. lia.
  - unfold rint. destruct (Qcompare _ _); [destruct (Z.even _)| |]; lia.
Qed.

Lemma np_round_ge (d : nat) (k : Z) (x : Q) :
  (inject_Z k <= x * inject_Z (Zpos (pow10 d)))%Q ->
  (k # pow10 d <= np_round d x)%Q.
Proof.
  intros Hk. apply rint_ge in Hk. unfold np_round, Qle. cbn [Qnum Qden]. nia.
Qed.

Lemma np_round_le (d : nat) (k : Z) (x : Q) :
  (x * inject_Z (Zpos (pow10 d)) <= inject_Z k)%Q ->
  (np_round d x <= k # pow10 d)%Q.
Proof.
  intros Hk. apply rint_le in Hk. unfold np_round, Qle. cbn [Qnum Qden]. nia.
Qed.

(** Rounding to [d] decimals keeps a value between two bounds that are
    themselves multiples of [10^-d]. *)
Lemma np_round_between (d : nat) (lo hi : Z) (x : Q) :
  (lo # pow10 d <= x)%Q -> (x <= hi # pow10 d)%Q ->
  (lo # pow10 d <= np_round d x /\ np_round d x <= hi # pow10 d)%Q.
Proof.
  intros Hlo Hhi. split.
  - apply np_round_ge. unfold Qle in *. cbn [Qnum Qden Qmult inject_Z] in *. nia.
  - apply np_round_le. unfold Qle in *. cbn [Qnum Qden Qmult inject_Z] in *. nia.
Qed.

(** ** Doubles *)

Lemma rint_error (x : Q) :
  (inject_Z (rint x) - x <= 1 # 2 /\ x - inject_Z (rint x) <= 1 # 2)%Q.
Proof.
  pose proof (Qfloor_le x) as Hlo. pose proof (Qlt_floor x) as Hhi.
  rewrite inject_Z_plus in Hhi. change (inject_Z 1) with 1%Q in Hhi.
  unfold rint.
  destruct (Qcompare_spec (x - inject_Z (Qfloor x)) (1 # 2)) as [He | Hl | Hg].
  - destruct (Z.even (Qfloor x)).
    + split; lra.
    + rewrite inject_Z_plus. change (inject_Z 1) with 1%Q. split; lra.
  - split; lra.
  - rewrite inject_Z_plus. change (inject_Z 1) with 1%Q. split; lra.
Qed.



Lemma rint_mono (x y : Q) : (x <= y)%Q -> rint x <= rint y.
Proof.
  intros Hxy.
  pose proof (Qfloor_resp_le _ _ Hxy) as Hf.
  destruct (Z.eq_dec (Qfloor x) (Qfloor y)) as [Heq | Hne].
  - unfold rint. rewrite Heq.
    destruct (Qcompare_spec (x - inject_Z (Qfloor y)) (1 # 2)) as [Hx | Hx | Hx];
      destruct (Qcompare_spec (y - inject_Z (Qfloor y)) (1 # 2)) as [Hy | Hy | Hy];
      try destruct (Z.even (Qfloor y)); try lia; exfalso; lra.
  - assert (Hup : rint x <= Qfloor x + 1).
    { unfold rint. destruct (Qcompare _ _); [destruct (Z.even _)| |]; lia. }
    pose proof (rint_floor_le y). lia.
Qed.

Lemma pow2_pos (e : Z) : (0 < pow2 e)%Q.
Proof. apply Qpower_0_lt. reflexivity. Qed.

Lemma pow2_add (a b : Z) : (pow2 (a + b) == pow2 a * pow2 b)%Q.
Proof. apply Qpower_plus. intros H. discriminate H. Qed.

Lemma pow2_le (a b : Z) : a <= b -> (pow2 a <= pow2 b)%Q.
Proof. intros H. apply Qpower_le_compat_l; [exact H | unfold Qle; cbn; lia]. Qed.

Lemma pow2_lt (a b : Z) : a < b -> (pow2 a < pow2 b)%Q.
Proof. intros H. apply Qpower_lt_compat_l; [exact H | reflexivity]. Qed.

Lemma pow2_le_inv (a b : Z) : (pow2 a <= pow2 b)%Q -> a <= b.
Proof. intros H. apply (Qpower_le_compat_l_inv 2); [exact H | reflexivity]. Qed.

Lemma pow2_lt_inv (a b : Z) : (pow2 a < pow2 b)%Q -> a < b.
Proof. intros H. apply (Qpower_lt_compat_l_inv 2); [exact H | reflexivity]. Qed.

Lemma pow2_Z (e : Z) : 0 <= e -> (pow2 e == inject_Z (2 ^ e))%Q.
Proof. intros H. unfold pow2. now rewrite Zpower_Qpower. Qed.

Lemma pow2_sub (a b : Z) : (pow2 (a - b) == pow2 a / pow2 b)%Q.
Proof.
  unfold Z.sub. rewrite pow2_add. unfold pow2 at 2. rewrite Qpower_opp.
  reflexivity.
Qed.

Lemma Qdiv_lt_div (n d p r : Q) :
  (0 < d)%Q -> (0 < r)%Q -> (n * r < p * d)%Q -> (n / d < p / r)%Q.
Proof.
  intros Hd Hr H. apply Qlt_shift_div_l; [exact Hr |].
  setoid_replace (n / d * r)%Q with (n * r / d)%Q by (field; lra).
  apply Qlt_shift_div_r; [exact Hd | exact H].
Qed.

Lemma ilog2_spec (x : Q) :
  (0 < x)%Q -> (pow2 (ilog2 x) <= x /\ x < pow2 (ilog2 x + 1))%Q.
Proof.
  intros Hx. destruct x as [n d].
  assert (Hn : 0 < n) by (unfold Qlt in Hx; cbn in Hx; lia).
  unfold ilog2. cbn [Qnum Qden].
  set (a := Z.log2 n). set (b := Z.log2 (Zpos d)).
  pose proof (Z.log2_spec n Hn) as [Ha1 Ha2]. fold a in Ha1, Ha2.
  pose proof (Z.log2_spec (Zpos d) eq_refl) as [Hb1 Hb2]. fold b in Hb1, Hb2.
  pose proof (Z.log2_nonneg n) as Ha0. fold a in Ha0.
  pose proof (Z.log2_nonneg (Zpos d)) as Hb0. fold b in Hb0.
  assert (Hnd : (n # d == inject_Z n / inject_Z (Zpos d))%Q) by apply Qmake_Qdiv.
  assert (Hdpos : (0 < inject_Z (Zpos d))%Q) by reflexivity.
  assert (Hpa : 0 < 2 ^ a) by (apply Z.pow_pos_nonneg; lia).
  assert (Hpb : 0 < 2 ^ b) by (apply Z.pow_pos_nonneg; lia).
  assert (Hsa : 2 ^ Z.succ a = 2 * 2 ^ a) by (apply Z.pow_succ_r; lia).
  assert (Hsb : 2 ^ Z.succ b = 2 * 2 ^ b) by (apply Z.pow_succ_r; lia).
  assert (Hup : (n # d < pow2 (a - b + 1))%Q).
  { replace (a - b + 1) with (Z.succ a - b) by lia.
    rewrite pow2_sub, Hnd, !pow2_Z by lia.
    apply Qdiv_lt_div; [exact Hdpos | rewrite <- pow2_Z by lia; apply pow2_pos |].
    rewrite <- !inject_Z_mult, <- Zlt_Qlt. nia. }
  assert (Hlow : (pow2 (a - b - 1) < n # d)%Q).
  { replace (a - b - 1) with (a - Z.succ b) by lia.
    rewrite pow2_sub, Hnd, !pow2_Z by lia.
    apply Qdiv_lt_div; [rewrite <- pow2_Z by lia; apply pow2_pos | exact Hdpos |].
    rewrite <- !inject_Z_mult, <- Zlt_Qlt. nia. }
  destruct (Qle_bool (pow2 (a - b)) (n # d)) eqn:Hb.
  - apply Qle_bool_iff in Hb. split; assumption.
  - assert (Hlt : (n # d < pow2 (a - b))%Q).
    { apply Qnot_le_lt. intros Hle. apply Qle_bool_iff in Hle. congruence. }
    replace (a - b - 1 + 1) with (a - b) by lia.
    split; [apply Qlt_le_weak; exact Hlow | exact Hlt].
Qed.

Lemma ilog2_le (x : Q) (j : Z) : (0 < x)%Q -> (x <= pow2 j)%Q -> ilog2 x <= j.
Proof.
  intros Hx Hj. destruct (ilog2_spec x Hx) as [Hlo _].
  apply pow2_le_inv. lra.
Qed.

Lemma ilog2_lt (x : Q) (j : Z) : (0 < x)%Q -> (x < pow2 j)%Q -> ilog2 x < j.
Proof.
  intros Hx Hj. destruct (ilog2_spec x Hx) as [Hlo _].
  apply pow2_lt_inv. lra.
Qed.

Lemma ilog2_ge (x : Q) (j : Z) : (pow2 j <= x)%Q -> j <= ilog2 x.
Proof.
  intros Hj.
  assert (Hx : (0 < x)%Q) by (pose proof (pow2_pos j); lra).
  destruct (ilog2_spec x Hx) as [_ Hhi].
  assert (j < ilog2 x + 1) by (apply pow2_lt_inv; lra). lia.
Qed.

Lemma ilog2_mono (x y : Q) : (0 < x)%Q -> (x <= y)%Q -> ilog2 x <= ilog2 y.
Proof.
  intros Hx Hxy. apply ilog2_ge. destruct (ilog2_spec x Hx) as [Hlo _]. lra.
Qed.

Lemma to_float64_pos_eq (x : Q) : (0 < x)%Q -> (to_float64 x == round_pos x)%Q.
Proof.
  intros Hx. unfold to_float64.
  destruct (Qcompare_spec x 0) as [H | H | H]; try lra.
  apply Qred_correct.
Qed.

Lemma to_float64_0 (x : Q) : (x == 0)%Q -> to_float64 x = 0%Q.
Proof.
  intros Hx. unfold to_float64.
  destruct (Qcompare_spec x 0) as [H | H | H]; try lra. reflexivity.
Qed.

(** A bound that is on the grid of [x] bounds the rounded value. *)
Lemma round_pos_le_grid (x : Q) (k : Z) :
  (x <= inject_Z k * pow2 (ulp_exponent x))%Q ->
  (round_pos x <= inject_Z k * pow2 (ulp_exponent x))%Q.
Proof.
  intros Hk. unfold round_pos.
  pose proof (pow2_pos (ulp_exponent x)) as Hp.
  apply Qmult_le_compat_r; [| lra].
  rewrite <- Zle_Qle. apply rint_le.
  apply Qle_shift_div_r; [exact Hp | exact Hk].
Qed.

Lemma round_pos_ge_grid (x : Q) (k : Z) :
  (inject_Z k * pow2 (ulp_exponent x) <= x)%Q ->
  (inject_Z k * pow2 (ulp_exponent x) <= round_pos x)%Q.
Proof.
  intros Hk. unfold round_pos.
  pose proof (pow2_pos (ulp_exponent x)) as Hp.
  apply Qmult_le_compat_r; [| lra].
  rewrite <- Zle_Qle. apply rint_ge.
  apply Qle_shift_div_l; [exact Hp | exact Hk].
Qed.

Lemma round_pos_error (x : Q) :
  (round_pos x - x <= pow2 (ulp_exponent x - 1)
   /\ x - round_pos x <= pow2 (ulp_exponent x - 1))%Q.
Proof.
  unfold round_pos. set (q := ulp_exponent x).
  pose proof (pow2_pos q) as Hp.
  pose proof (rint_error (x / pow2 q)) as [Hup Hdown].
  set (m := inject_Z (rint (x / pow2 q))) in *.
  assert (Hx : (x == x / pow2 q * pow2 q)%Q) by (field; lra).
  assert (Hh : (pow2 (q - 1) == (1 # 2) * pow2 q)%Q).
  { rewrite pow2_sub. change (pow2 1) with 2%Q. field. }
  rewrite Hh.
  set (t := (x / pow2 q)%Q) in *.
  split.
  - setoid_replace (m * pow2 q - x)%Q with ((m - t) * pow2 q)%Q by (rewrite Hx at 1; ring).
    apply Qmult_le_compat_r; lra.
  - setoid_replace (x - m * pow2 q)%Q with ((t - m) * pow2 q)%Q by (rewrite Hx at 1; ring).
    apply Qmult_le_compat_r; lra.
Qed.

Lemma to_float64_nonneg (x : Q) : (0 <= x)%Q -> (0 <= to_float64 x)%Q.
Proof.
  intros Hx. destruct (Qlt_le_dec 0 x) as [Hpos | Hle].
  - rewrite (to_float64_pos_eq x Hpos).
    pose proof (round_pos_ge_grid x 0) as H.
    setoid_replace (inject_Z 0 * pow2 (ulp_exponent x))%Q with 0%Q in H by ring.
    apply H. lra.
  - rewrite to_float64_0 by lra. lra.
Qed.

(** Rounding error: at most half a unit in the last place. *)
Lemma to_float64_error (x : Q) (j : Z) :
  (0 <= x)%Q -> (x <= pow2 j)%Q -> -1022 <= j ->
  (to_float64 x - x <= pow2 (j - 53) /\ x - to_float64 x <= pow2 (j - 53))%Q.
Proof.
  intros H0 Hj Hmin.
  pose proof (pow2_pos (j - 53)) as Hp.
  destruct (Qlt_le_dec 0 x) as [Hpos | Hle].
  - rewrite (to_float64_pos_eq x Hpos).
    pose proof (round_pos_error x) as [Hup Hdown].
    assert (Hq : (pow2 (ulp_exponent x - 1) <= pow2 (j - 53))%Q).
    { apply pow2_le. unfold ulp_exponent.
      pose proof (ilog2_le x j Hpos Hj). lia. }
    split; lra.
  - rewrite to_float64_0 by lra. split; lra.
Qed.

(** Integers below 2^53 in magnitude are doubles. *)
Lemma to_float64_exact_Z (z : Z) :
  0 <= z < 2 ^ 53 -> (to_float64 (inject_Z z) == inject_Z z)%Q.
Proof.
  intros Hz. destruct (Z.eq_dec z 0) as [-> | Hne]; [reflexivity |].
  assert (Hpos : (0 < inject_Z z)%Q) by (unfold Qlt; cbn; lia).
  rewrite (to_float64_pos_eq _ Hpos).
  set (q := ulp_exponent (inject_Z z)).
  assert (Hq : q <= 0).
  { unfold q, ulp_exponent.
    assert (ilog2 (inject_Z z) < 53).
    { apply ilog2_lt; [exact Hpos |]. rewrite pow2_Z by lia.
      rewrite <- Zlt_Qlt. lia. }
    lia. }
  assert (Hgrid : (inject_Z z == inject_Z (z * 2 ^ (- q)) * pow2 q)%Q).
  { rewrite inject_Z_mult, <- pow2_Z by lia.
    rewrite <- Qmult_assoc, <- pow2_add.
    replace (- q + q) with 0 by lia. change (pow2 0) with 1%Q. ring. }
  apply Qle_antisym.
  - rewrite Hgrid at 2. apply round_pos_le_grid. fold q. rewrite <- Hgrid. lra.
  - rewrite Hgrid at 1. apply round_pos_ge_grid. fold q. rewrite <- Hgrid. lra.
Qed.

Lemma round_pos_mono (x y : Q) :
  (0 < x)%Q -> (x <= y)%Q -> (round_pos x <= round_pos y)%Q.
Proof.
  intros Hx Hxy.
  assert (Hy : (0 < y)%Q) by lra.
  pose proof (ilog2_mono x y Hx Hxy) as He.
  destruct (Z.eq_dec (ulp_exponent x) (ulp_exponent y)) as [Heq | Hne].
  - unfold round_pos. rewrite Heq.
    pose proof (pow2_pos (ulp_exponent y)) as Hp.
    apply Qmult_le_compat_r; [| lra].
    rewrite <- Zle_Qle. apply rint_mono.
    apply Qmult_le_compat_r; [exact Hxy |].
    apply Qlt_le_weak, Qinv_lt_0_compat, Hp.
  - set (qx := ulp_exponent x) in *. set (qy := ulp_exponent y) in *.
    set (ey := ilog2 y) in *.
    assert (Hqy : qy = ey - 52 /\ qx < qy /\ ilog2 x < ey).
    { unfold qx, qy, ulp_exponent in *. fold ey. fold ey in He. lia. }
    destruct Hqy as (Hqy & Hqlt & Helt).
    destruct (ilog2_spec x Hx) as [_ Hxhi].
    destruct (ilog2_spec y Hy) as [Hylo _]. fold ey in Hylo.
    assert (Hmid : (x <= pow2 ey)%Q).
    { assert (pow2 (ilog2 x + 1) <= pow2 ey)%Q by (apply pow2_le; lia). lra. }
    (* pow2 ey is on both grids *)
    assert (Hgx : (pow2 ey == inject_Z (2 ^ (ey - qx)) * pow2 qx)%Q).
    { rewrite <- pow2_Z by lia. rewrite <- pow2_add. now replace (ey - qx + qx) with ey by lia. }
    assert (Hgy : (pow2 ey == inject_Z (2 ^ (ey - qy)) * pow2 qy)%Q).
    { rewrite <- pow2_Z by lia. rewrite <- pow2_add. now replace (ey - qy + qy) with ey by lia. }
    apply Qle_trans with (pow2 ey).
    + rewrite Hgx. apply round_pos_le_grid. fold qx. rewrite <- Hgx. exact Hmid.
    + rewrite Hgy. apply round_pos_ge_grid. fold qy. rewrite <- Hgy. exact Hylo.
Qed.

Lemma to_float64_mono (x y : Q) : (0 <= x)%Q -> (x <= y)%Q -> (to_float64 x <= to_float64 y)%Q.
Proof.
  intros H0 Hxy. destruct (Qlt_le_dec 0 x) as [Hpos | Hle].
  - rewrite (to_float64_pos_eq x Hpos), (to_float64_pos_eq y) by lra. now apply round_pos_mono.
  - rewrite (to_float64_0 x) by lra. apply to_float64_nonneg. lra.
Qed.

Lemma to_float64_le_Z (x : Q) (b : Z) :
  (0 <= x)%Q -> (x <= inject_Z b)%Q -> b < 2 ^ 53 -> (to_float64 x <= inject_Z b)%Q.
Proof.
  intros H0 Hb Hlt.
  assert (Hb0 : (inject_Z 0 <= inject_Z b)%Q)
    by (change (inject_Z 0) with 0%Q; lra).
  rewrite <- Zle_Qle in Hb0.
  rewrite <- (to_float64_exact_Z b) by lia. now apply to_float64_mono.
Qed.

Lemma to_float64_comp (x y : Q) : (x == y)%Q -> (to_float64 x == to_float64 y)%Q.
Proof.
  intros Hxy. apply Qle_antisym.
  - destruct (Qlt_le_dec x 0) as [Hneg | Hpos].
    + unfold to_float64. 
      destruct (Qcompare_spec x 0) as [H | H | H]; try lra.
      destruct (Qcompare_spec y 0) as [H' | H' | H']; try lra.
      rewrite !Qred_correct.
      assert (round_pos (- y) <= round_pos (- x))%Q by (apply round_pos_mono; lra).
      lra.
    + apply to_float64_mono; lra.
  - destruct (Qlt_le_dec x 0) as [Hneg | Hpos].
    + unfold to_float64. 
      destruct (Qcompare_spec x 0) as [H | H | H]; try lra.
      destruct (Qcompare_spec y 0) as [H' | H' | H']; try lra.
      rewrite !Qred_correct.
      assert (round_pos (- x) <= round_pos (- y))%Q by (apply round_pos_mono; lra).
      lra.
    + apply to_float64_mono; lra.
Qed.

Lemma to_float64_eq (x y : Q) : (x == y)%Q -> to_float64 x = to_float64 y.
Proof.
  intros Hxy. unfold to_float64.
  destruct (Qcompare_spec x 0) as [H | H | H];
    destruct (Qcompare_spec y 0) as [H' | H' | H']; try lra; try reflexivity.
  - apply Qred_complete.
    assert (Hr : (round_pos (- x) == round_pos (- y))%Q).
    { apply Qle_antisym; apply round_pos_mono; lra. }
    rewrite Hr. reflexivity.
  - apply Qred_complete. apply Qle_antisym; apply round_pos_mono; lra.
Qed.

(** The relative form of the rounding error. *)
Lemma to_float64_error_rel (x : Q) :
  (pow2 (-1022) <= x)%Q ->
  (to_float64 x - x <= x * pow2 (-52) /\ x - to_float64 x <= x * pow2 (-52))%Q.
Proof.
  intros Hx.
  assert (Hpos : (0 < x)%Q) by (pose proof (pow2_pos (-1022)); lra).
  destruct (ilog2_spec x Hpos) as [Hlo Hhi].
  pose proof (ilog2_ge x (-1022) Hx) as He.
  destruct (to_float64_error x (ilog2 x + 1)) as [H1 H2]; [lra | lra | lia |].
  replace (ilog2 x + 1 - 53) with (ilog2 x + -52) in H1, H2 by lia.
  rewrite pow2_add in H1, H2.
  pose proof (pow2_pos (-52)) as Hp.
  assert (Hm : (pow2 (ilog2 x) * pow2 (-52) <= x * pow2 (-52))%Q) by nra.
  split; lra.
Qed.


(** ** Samplers *)

Lemma replicateM_length {G A} (m : Rand G A) (n : nat) (g : G) :
  List.length (fst (replicateM n m g)) = n.
Proof.
  revert g. induction n as [| n IH]; intros g; cbn; [reflexivity |].
  unfold bind. destruct (m g) as [x g1]. specialize (IH g1).
  destruct (replicateM n m g1) as [xs g2]. cbn in *. now rewrite IH.
Qed.

Lemma replicateM_Forall {G A} (P : A -> Prop) (m : Rand G A) :
  (forall g, P (fst (m g))) ->
  forall n g, Forall P (fst (replicateM n m g)).
Proof.
  intros Hm n. induction n as [| n IH]; intros g; cbn; [constructor |].
  unfold bind. pose proof (Hm g) as Hx. destruct (m g) as [x g1].
  specialize (IH g1). destruct (replicateM n m g1) as [xs g2]. cbn in *.
  now constructor.
Qed.

Lemma uniform1_range {G} `{RandomStateOk G} (low high : Q) (g : G) :
  (low <= high)%Q ->
  (low <= fst (uniform1 low high g) /\ fst (uniform1 low high g) <= high)%Q.
Proof.
  intros Hlh. unfold uniform1, bind, ret.
  pose proof (random_sample_range g) as [Hu0 Hu1].
  destruct (rs_random_sample g) as [u g1]. cbn [fst] in *.
  split; nra.
Qed.

(** ** The synthesiser *)

Section SynthesiserFacts.
Context {G : Type} `{RandomState G}.

(** Each column is the result of its sampler at the state left by the
    draws before it. *)
Lemma columns_unfold (n : nat) :
  exists g1 g2 g3 g4 g5 g6 : G,
    columns n =
      mkDraws
        (fst (np_random_lognormal 4 (18 # 10) n (rs_seed 42)))
        (fst (np_random_choice_p AMAZON merchants n merchant_p g1))
        (fst (np_random_choice US countries n g2))
        (fst (replicateM n (np_random_randint 1000 9999) g3))
        (fst (np_random_random n g4))
        (fst (np_random_uniform (7 # 10) 1 n g5))
        (fst (np_random_uniform 0 (6 # 10) n g6)).
Proof.
  unfold columns, draw_columns, bind.
  destruct (np_random_lognormal _ _ n (rs_seed 42)) as [a g1] eqn:E1.
  destruct (np_random_choice_p _ _ n _ g1) as [m g2] eqn:E2.
  destruct (np_random_choice _ _ n g2) as [c g3] eqn:E3.
  destruct (replicateM n _ g3) as [u g4] eqn:E4.
  destruct (np_random_random n g4) as [l g5] eqn:E5.
  destruct (np_random_uniform _ _ n g5) as [hi g6] eqn:E6.
  destruct (np_random_uniform _ _ n g6) as [lo g7] eqn:E7.
  exists g1, g2, g3, g4, g5, g6.
  rewrite E2, E3, E4, E5, E6, E7. reflexivity.
Qed.

Lemma generate_fraud_data_inv (clk : clock) (n : Z) (df : DataFrame) :
  generate_fraud_data clk n = Ok df ->
  0 <= n /\
  exists dates,
    date_range (now_start clk - timedelta_days 30) (now_end clk) n = Ok dates /\
    df = map (row_at dates (columns (Z.to_nat n))) (seq 0 (Z.to_nat n)).
Proof.
  unfold generate_fraud_data.
  destruct (date_range _ _ n) as [dates | e] eqn:E; [| discriminate].
  intros Hdf. injection Hdf as <-. split; [| now exists dates].
  unfold date_range, linspace in E.
  destruct (n <? 0) eqn:En; [discriminate | lia].
Qed.


Lemma generate_fraud_data_In (clk : clock) (n : Z) (df : DataFrame) (r : Transaction) :
  generate_fraud_data clk n = Ok df -> In r df ->
  exists dates i,
    (i < Z.to_nat n)%nat /\ r = row_at dates (columns (Z.to_nat n)) i.
Proof.
  intros Hg Hr. apply generate_fraud_data_inv in Hg as (_ & dates & _ & ->).
  apply in_map_iff in Hr as (i & <- & Hi). apply in_seq in Hi.
  exists dates, i. split; [lia | reflexivity].
Qed.

Lemma generate_fraud_data_nth (clk : clock) (n : Z) (df : DataFrame)
      (i : nat) (r : Transaction) :
  generate_fraud_data clk n = Ok df -> nth_error df i = Some r ->
  exists dates, r = row_at dates (columns (Z.to_nat n)) i.
Proof.
  intros Hg Hr. apply generate_fraud_data_inv in Hg as (_ & dates & _ & ->).
  exists dates.
  assert (Hi : (i < Z.to_nat n)%nat).
  { assert (Hn : nth_error (map (row_at dates (columns (Z.to_nat n)))
                                (seq 0 (Z.to_nat n))) i <> None) by congruence.
    apply nth_error_Some in Hn.
    now rewrite length_map, length_seq in Hn. }
  rewrite nth_error_map, nth_error_seq in Hr.
  apply Nat.ltb_lt in Hi. rewrite Hi in Hr. cbn in Hr. congruence.
Qed.

(** The column of label draws consists of [n] samples of the unit
    interval. *)
Lemma raw_label_length (n : nat) : List.length (raw_label (columns n)) = n.
Proof.
  destruct (columns_unfold n) as (g1 & g2 & g3 & g4 & g5 & g6 & ->).
  cbn [raw_label]. apply replicateM_length.
Qed.
End SynthesiserFacts.

(** *** Timestamps of the ledger *)

Lemma nth_map_seq {A} (f : nat -> A) (n i : nat) (d : A) :
  (i < n)%nat -> nth i (map f (seq 0 n)) d = f i.
Proof.
  intros Hi. rewrite (nth_indep _ d (f 0%nat)) by now rewrite length_map, length_seq.
  rewrite map_nth, seq_nth by exact Hi. reflexivity.
Qed.

Lemma date_range_nth (s e n : Z) (dates : list Z) (i : nat) :
  2 <= n -> date_range s e n = Ok dates -> (i < Z.to_nat n)%nat ->
  nth i dates 0 = s + Z.of_nat i * (e - s) / (n - 1).
Proof.
  intros Hn Hd Hi. unfold date_range, linspace in Hd.
  destruct (Z.ltb_spec n 0) as [Hneg | _]; [lia |].
  injection Hd as <-. rewrite map_map, nth_map_seq by exact Hi.
  destruct (Z.eqb_spec n 1) as [H1 | _]; lia.
Qed.

Section Timestamps.
Context {G : Type} `{RandomState G}.

Lemma generated_date_nth (clk : clock) (n : Z) (df : DataFrame) (i : nat) :
  2 <= n -> generate_fraud_data clk n = Ok df -> (i < Z.to_nat n)%nat ->
  nth i (map date df) 0
  = window_start clk + Z.of_nat i * window_span clk / (n - 1).
Proof.
  intros Hn Hg Hi.
  apply generate_fraud_data_inv in Hg as (_ & dates & Hd & ->).
  rewrite map_map, nth_map_seq by exact Hi. cbn [row_at date].
  now apply date_range_nth.
Qed.
End Timestamps.

Lemma generate_fraud_data_ok {G : Type} `{RandomState G} (clk : clock) (n : Z) :
  0 <= n ->
  exists df, generate_fraud_data clk n = Ok df /\ Z.of_nat (List.length df) = n.
Proof.
  intros Hn. unfold generate_fraud_data, date_range, linspace.
  destruct (Z.ltb_spec n 0) as [Hneg | _]; [lia |].
  eexists. split; [reflexivity |]. rewrite length_map, length_seq. lia.
Qed.

Section LedgerEnds.
Context {G : Type} `{RandomState G}.

Lemma generated_date_first (clk : clock) (n : Z) (df : DataFrame) :
  1 <= n -> generate_fraud_data clk n = Ok df ->
  nth 0 (map date df) 0 = window_start clk.
Proof.
  intros Hn Hg.
  apply generate_fraud_data_inv in Hg as (_ & dates & Hd & ->).
  rewrite map_map, nth_map_seq by lia. cbn [row_at date].
  unfold date_range, linspace in Hd.
  destruct (Z.ltb_spec n 0) as [Hneg | _]; [lia |].
  injection Hd as <-. rewrite map_map, nth_map_seq by lia.
  cbn [Z.of_nat]. rewrite Z.mul_0_l. unfold window_start, timedelta_days, ns_per_day.
  destruct (Z.eqb_spec n 1) as [H1 | Hne]; [lia |].
  rewrite Z.div_0_l by lia. lia.
Qed.

Lemma generated_date_last (clk : clock) (n : Z) (df : DataFrame) :
  2 <= n -> generate_fraud_data clk n = Ok df ->
  nth (Z.to_nat n - 1) (map date df) 0 = now_end clk.
Proof.
  intros Hn Hg. rewrite (generated_date_nth clk n df _ Hn Hg) by lia.
  replace (Z.of_nat (Z.to_nat n - 1)) with (n - 1) by lia.
  rewrite Z.mul_comm, Z.div_mul by lia.
  unfold window_span. lia.
Qed.

(** With one row the second reading of the clock plays no part. *)
Lemma date_range_single_row (s e1 e2 : Z) : date_range s e1 1 = date_range s e2 1.
Proof. reflexivity. Qed.
End LedgerEnds.

(** *** Determinism *)

(** Nothing but the [date] column depends on the clock. *)
Lemma undated_row_at (dates1 dates2 : list Z) (d : Draws) (i : nat) :
  undated (row_at dates1 d i) = undated (row_at dates2 d i).
Proof. reflexivity. Qed.

(** C1, as stated, fails: two runs of the same size that read the clock one
    microsecond apart yield different ledgers. *)
Lemma runs_at_different_times_differ :
  generate_fraud_data (G := Z) (mkClock 0 0) 2
  <> generate_fraud_data (G := Z) (mkClock 1000 1000) 2.
Proof.
  intros Heq. vm_compute in Heq. discriminate Heq.
Qed.

(** C1 (amended): for a fixed size and the fixed seed, two runs agree on
    every field of every record except the timestamp, whatever the clock
    shows; the two runs give equal results in every field, timestamps
    included, if and only if the size is not positive, or both runs read
    the same first clock value and, unless the size is 1, the same second
    clock value. *)
Theorem seeded_runs_agree {G : Type} `{RandomState G} (clk1 clk2 : clock) (n : Z) :
  result_map (map undated) (generate_fraud_data clk1 n)
  = result_map (map undated) (generate_fraud_data clk2 n)
  /\ (generate_fraud_data clk1 n = generate_fraud_data clk2 n
      <-> n <= 0
          \/ (now_start clk1 = now_start clk2
              /\ (n = 1 \/ now_end clk1 = now_end clk2))).
Proof.
  split.
  - unfold generate_fraud_data, date_range, linspace.
    destruct (n <? 0); cbn [result_map]; [reflexivity |].
    f_equal. rewrite !map_map. apply map_ext. intros i.
    apply undated_row_at.
  - split.
    + intros Heq.
      destruct (Z.le_gt_cases n 0) as [Hle | Hpos]; [now left | right].
      destruct (generate_fraud_data_ok clk1 n ltac:(lia)) as (df1 & Hg1 & _).
      destruct (generate_fraud_data_ok clk2 n ltac:(lia)) as (df2 & Hg2 & _).
      assert (Hdf : df1 = df2) by congruence. subst df2.
      assert (Hstart : now_start clk1 = now_start clk2).
      { pose proof (generated_date_first clk1 n df1 ltac:(lia) Hg1) as H1.
        pose proof (generated_date_first clk2 n df1 ltac:(lia) Hg2) as H2.
        unfold window_start in H1, H2. lia. }
      split; [exact Hstart |].
      destruct (Z.eq_dec n 1) as [H1 | Hne]; [now left | right].
      pose proof (generated_date_last clk1 n df1 ltac:(lia) Hg1) as H1.
      pose proof (generated_date_last clk2 n df1 ltac:(lia) Hg2) as H2.
      congruence.
    + intros [Hle | (Hs & [H1 | He])].
      * unfold generate_fraud_data, date_range, linspace.
        destruct (Z.ltb_spec n 0) as [Hneg | Hnn]; [reflexivity |].
        replace n with 0 by lia. reflexivity.
      * subst n. unfold generate_fraud_data. rewrite Hs.
        now rewrite (date_range_single_row _ (now_end clk1) (now_end clk2)).
      * unfold generate_fraud_data. now rewrite Hs, He.
Qed.

(** *** Labelling *)






(** *** Ranges *)

(** C3: every generated record has a non-negative amount and a risk score
    in [[0, 1]] outside the open interval (0.6, 0.7); the score is at
    least 0.7 when the record is labelled fraudulent and at most 0.6
    otherwise. *)
Theorem range_invariants {G : Type} `{RandomStateOk G}
        (clk : clock) (n : Z) (df : DataFrame) (r : Transaction) :
  generate_fraud_data clk n = Ok df -> In r df ->
  (0 <= amount r)%Q
  /\ (0 <= risk_score r /\ risk_score r <= 1)%Q
  /\ ~ (6 # 10 < risk_score r /\ risk_score r < 7 # 10)%Q
  /\ (is_fraud r = true -> (7 # 10 <= risk_score r)%Q)
  /\ (is_fraud r = false -> (risk_score r <= 6 # 10)%Q).
Proof.
  intros Hg Hr.
  destruct (generate_fraud_data_In clk n df r Hg Hr) as (dates & i & Hi & ->).
  destruct (columns_unfold (Z.to_nat n)) as (g1 & g2 & g3 & g4 & g5 & g6 & Hc).
  set (k := Z.to_nat n) in *.
  assert (Ha : (0 <= nth i (raw_amount (columns k)) 0)%Q).
  { rewrite Hc. cbn [raw_amount]. unfold np_random_lognormal.
    apply Forall_nth; [| now rewrite replicateM_length].
    apply replicateM_Forall. intros g. apply lognormal_nonneg. }
  assert (Hhi : (7 # 10 <= nth i (raw_high (columns k)) 0
                 /\ nth i (raw_high (columns k)) 0 <= 1)%Q).
  { rewrite Hc. cbn [raw_high]. unfold np_random_uniform.
    apply (proj1 (Forall_nth (fun x => (7 # 10 <= x /\ x <= 1)%Q) _));
      [| now rewrite replicateM_length].
    apply replicateM_Forall. intros g. apply uniform1_range. lra. }
  assert (Hlo : (0 <= nth i (raw_low (columns k)) 0
                 /\ nth i (raw_low (columns k)) 0 <= 6 # 10)%Q).
  { rewrite Hc. cbn [raw_low]. unfold np_random_uniform.
    apply (proj1 (Forall_nth (fun x => (0 <= x /\ x <= 6 # 10)%Q) _));
      [| now rewrite replicateM_length].
    apply replicateM_Forall. intros g. apply uniform1_range. lra. }
  unfold row_at. cbn [amount risk_score is_fraud].
  set (f := fraud_conditions _ _ _ && _).
  split.
  { assert (Hr2 : (0 # pow10 2 <= np_round 2 (nth i (raw_amount (columns k)) 0))%Q).
    { apply np_round_ge. change (inject_Z (Zpos (pow10 2))) with (100 # 1)%Q.
      change (inject_Z 0) with (0 # 1)%Q. lra. }
    change (pow10 2) with 100%positive in Hr2. lra. }
  destruct f.
  - destruct Hhi as [H7 H1].
    destruct (np_round_between 3 700 1000 (nth i (raw_high (columns k)) 0%Q))
      as [Hl Hu].
    { change (pow10 3) with 1000%positive. lra. }
    { change (pow10 3) with 1000%positive. lra. }
    change (pow10 3) with 1000%positive in Hl, Hu.
    repeat split; try lra; try (intros Hf; discriminate Hf).
  - destruct Hlo as [H0' H6].
    destruct (np_round_between 3 0 600 (nth i (raw_low (columns k)) 0%Q))
      as [Hl Hu].
    { change (pow10 3) with 1000%positive. lra. }
    { change (pow10 3) with 1000%positive. lra. }
    change (pow10 3) with 1000%positive in Hl, Hu.
    repeat split; try lra; try (intros Hf; discriminate Hf).
Qed.

Lemma range_invariants_witness :
  In (nth 8 sample_ledger blank) sample_ledger
  /\ (0 <= amount (nth 8 sample_ledger blank))%Q
  /\ (0 <= risk_score (nth 8 sample_ledger blank)
      /\ risk_score (nth 8 sample_ledger blank) <= 1)%Q
  /\ ~ (6 # 10 < risk_score (nth 8 sample_ledger blank)
        /\ risk_score (nth 8 sample_ledger blank) < 7 # 10)%Q
  /\ (is_fraud (nth 8 sample_ledger blank) = true ->
      (7 # 10 <= risk_score (nth 8 sample_ledger blank))%Q)
  /\ (is_fraud (nth 8 sample_ledger blank) = false ->
      (risk_score (nth 8 sample_ledger blank) <= 6 # 10)%Q).
Proof.
  assert (Hin : In (nth 8 sample_ledger blank) sample_ledger).
  { apply nth_In. vm_compute. lia. }
  split; [exact Hin |].
  exact (range_invariants sample_clock 12 sample_ledger
           (nth 8 sample_ledger blank) eq_refl Hin).
Defined.

(** *** Sizes that are not positive *)

(** C4, as stated, fails: size zero is not rejected; the synthesiser
    returns an empty ledger and the aggregates are computed from it. *)
Lemma size_zero_is_accepted :
  is_rejected (generate_fraud_data (G := Z) sample_clock 0) = false
  /\ is_rejected (dashboard (G := Z) sample_clock 0) = false.
Proof. split; reflexivity. Qed.

(** C4 (amended): a negative size stops generation with the [ValueError]
    of the date range, before any record exists, and nothing is
    aggregated; size zero yields the empty ledger, which is then
    aggregated. *)
Theorem nonpositive_size {G : Type} `{RandomState G} (clk : clock) (n : Z) :
  n <= 0 ->
  generate_fraud_data clk n = (if n =? 0 then Ok [] else Raise ValueError)
  /\ dashboard clk n = (if n =? 0 then Ok (aggregate []) else Raise ValueError).
Proof.
  intros Hn.
  assert (Hg : generate_fraud_data clk n
               = if n =? 0 then Ok [] else Raise ValueError).
  { unfold generate_fraud_data, date_range, linspace.
    destruct (Z.eqb_spec n 0) as [-> | Hne].
    - reflexivity.
    - destruct (Z.ltb_spec n 0) as [_ | Hge]; [reflexivity | lia]. }
  split; [exact Hg |].
  unfold dashboard. rewrite Hg. now destruct (n =? 0).
Qed.

Lemma nonpositive_size_witness :
  generate_fraud_data (G := Z) sample_clock (-3) = Raise ValueError
  /\ dashboard (G := Z) sample_clock (-3) = Raise ValueError.
Proof.
  apply (nonpositive_size (G := Z) sample_clock (-3)). lia.
Defined.

(** *** Scalar metrics *)

(** C5: on the empty ledger the fraud rate and the mean amount are both
    the NaN value; no division fault arises, and the other metrics are
    zero. *)
Theorem empty_ledger_metrics :
  fraud_rate [] = NaN
  /\ mean_amount [] = NaN
  /\ shown_fraud_rate (aggregate []) = NaN
  /\ shown_mean_amount (aggregate []) = NaN
  /\ total_transactions [] = 0
  /\ fraud_transactions [] = 0.
Proof. repeat split. Qed.

Lemma Series_sum_from (l : list Q) (a : Q) :
  (fold_left Qplus l a == a + Qsum l)%Q.
Proof.
  revert a. induction l as [| x l IH]; intros a; cbn [fold_left Qsum].
  - ring.
  - rewrite IH. ring.
Qed.

Lemma Series_sum_Qsum (l : list Q) : (Series_sum l == Qsum l)%Q.
Proof. unfold Series_sum. rewrite Series_sum_from. ring. Qed.

Lemma bool_sum_from (p : Transaction -> bool) (df : DataFrame) (a : Z) :
  fold_left (fun acc b => acc + Z.b2z b) (map p df) a = a + count_where p df.
Proof.
  unfold count_where. revert a.
  induction df as [| r df IH]; intros a; cbn [map fold_left filter].
  - cbn. lia.
  - rewrite IH. destruct (p r); cbn [Z.b2z List.length]; lia.
Qed.

Lemma bool_sum_count (p : Transaction -> bool) (df : DataFrame) :
  bool_sum (map p df) = count_where p df.
Proof. unfold bool_sum. now rewrite bool_sum_from. Qed.

Lemma Qsum_filter (p : Transaction -> bool) (f : Transaction -> Q) (df : DataFrame) :
  (Qsum (map f (filter p df)) == Qsum_where p f df)%Q.
Proof.
  induction df as [| r df IH]; cbn [filter map Qsum Qsum_where]; [reflexivity |].
  destruct (p r); cbn [map Qsum]; now rewrite IH.
Qed.

(** C6: on a non-empty ledger the six metrics are the sum of all amounts,
    the ledger size, the number of fraudulent records, the sum of their
    amounts, the fraud count over the size times 100, and the total
    amount over the size. *)
Theorem scalar_metrics (df : DataFrame) :
  df <> [] ->
  (total_amount df == Qsum (map amount df))%Q
  /\ total_transactions df = Z.of_nat (List.length df)
  /\ fraud_transactions df = count_where is_fraud df
  /\ (fraud_amount df == Qsum_where is_fraud amount df)%Q
  /\ float64_eq (fraud_rate df)
       (Finite (inject_Z (count_where is_fraud df)
                / inject_Z (Z.of_nat (List.length df)) * 100))
  /\ float64_eq (mean_amount df)
       (Finite (Qsum (map amount df) / inject_Z (Z.of_nat (List.length df)))).
Proof.
  intros Hne.
  assert (Hlen : Z.of_nat (List.length df) <> 0).
  { destruct df; [congruence | cbn [List.length]; lia]. }
  split; [apply Series_sum_Qsum |].
  split; [reflexivity |].
  split; [apply bool_sum_count |].
  split; [unfold fraud_amount; rewrite Series_sum_Qsum; apply Qsum_filter |].
  split.
  - unfold fraud_rate, np_true_divide, total_transactions, fraud_transactions.
    apply Z.eqb_neq in Hlen. rewrite Hlen.
    cbn [float64_mul float64_eq]. now rewrite bool_sum_count.
  - unfold mean_amount, Series_mean.
    destruct (map amount df) as [| a l] eqn:E.
    + destruct df; [congruence | discriminate E].
    + cbn [float64_eq]. rewrite <- E.
      now rewrite Series_sum_Qsum, length_map.
Qed.

Lemma scalar_metrics_witness :
  sample_ledger <> []
  /\ fraud_transactions sample_ledger = count_where is_fraud sample_ledger
  /\ float64_eq (fraud_rate sample_ledger)
       (Finite (inject_Z (count_where is_fraud sample_ledger)
                / inject_Z (Z.of_nat (List.length sample_ledger)) * 100)).
Proof.
  assert (Hne : sample_ledger <> []) by (vm_compute; discriminate).
  pose proof (scalar_metrics sample_ledger Hne) as (_ & _ & Hc & _ & Hr & _).
  exact (conj Hne (conj Hc Hr)).
Defined.

(** *** Amount distribution *)

Lemma legit_fraud_Permutation (df : DataFrame) :
  Permutation (legit_rows df ++ fraud_rows df) df.
Proof.
  unfold legit_rows, fraud_rows.
  induction df as [| r df IH]; cbn [filter]; [constructor |].
  destruct (is_fraud r); cbn [negb app].
  - symmetry. apply Permutation_cons_app. now symmetry.
  - now constructor.
Qed.

(** C9: the legitimate and the fraudulent amounts together are the
    ledger's amounts, each occurrence once; the two sizes add up to the
    ledger size; every record falls in exactly one of the two groups. *)
Theorem distribution_partitions (df : DataFrame) :
  Permutation (legit_amounts df ++ fraud_amounts df) (map amount df)
  /\ (List.length (legit_amounts df) + List.length (fraud_amounts df))%nat
     = List.length df
  /\ (forall r, In r df ->
        (In r (legit_rows df) /\ ~ In r (fraud_rows df))
        \/ (In r (fraud_rows df) /\ ~ In r (legit_rows df))).
Proof.
  pose proof (legit_fraud_Permutation df) as Hp.
  split; [| split].
  - unfold legit_amounts, fraud_amounts. rewrite <- map_app.
    now apply Permutation_map.
  - unfold legit_amounts, fraud_amounts.
    rewrite <- length_app, <- map_app, length_map.
    now apply Permutation_length.
  - intros r Hr. unfold legit_rows, fraud_rows.
    destruct (is_fraud r) eqn:Hf.
    + right. split.
      * apply filter_In. now split.
      * intros Hin. apply filter_In in Hin as [_ Hn]. rewrite Hf in Hn.
        discriminate Hn.
    + left. split.
      * apply filter_In. split; [exact Hr | now rewrite Hf].
      * intros Hin. apply filter_In in Hin as [_ Hn]. congruence.
Qed.

(** *** Daily series *)

Lemma insert_key_In (k x : Z) (ks : list Z) :
  In x (insert_key k ks) <-> x = k \/ In x ks.
Proof.
  induction ks as [| y ks IH]; cbn [insert_key].
  - cbn. intuition.
  - destruct (Z.ltb_spec k y) as [Hlt | Hge].
    + cbn. intuition.
    + destruct (Z.eqb_spec k y) as [-> | Hne].
      * cbn. intuition.
      * cbn [In]. rewrite IH. intuition.
Qed.

Lemma insert_key_sorted (k : Z) (ks : list Z) :
  StronglySorted Z.lt ks -> StronglySorted Z.lt (insert_key k ks).
Proof.
  induction 1 as [| y ks Hs IH Hall]; cbn [insert_key].
  - repeat constructor.
  - destruct (Z.ltb_spec k y) as [Hlt | Hge].
    + constructor; [now constructor |].
      constructor; [exact Hlt |].
      eapply Forall_impl; [| exact Hall]. intros z Hz. cbn in Hz. lia.
    + destruct (Z.eqb_spec k y) as [-> | Hne]; [now constructor |].
      constructor; [exact IH |].
      apply Forall_forall. intros z Hz. apply insert_key_In in Hz as [-> | Hz].
      * lia.
      * rewrite Forall_forall in Hall. now apply Hall.
Qed.

Lemma group_keys_In (x : Z) (l : list Z) : In x (group_keys l) <-> In x l.
Proof.
  induction l as [| k l IH]; cbn [group_keys fold_right]; [reflexivity |].
  fold (group_keys l). rewrite insert_key_In, IH. cbn. intuition.
Qed.

Lemma group_keys_sorted (l : list Z) : StronglySorted Z.lt (group_keys l).
Proof.
  induction l as [| k l IH]; cbn [group_keys fold_right]; [constructor |].
  now apply insert_key_sorted.
Qed.

Lemma sorted_lt_NoDup (l : list Z) : StronglySorted Z.lt l -> NoDup l.
Proof.
  induction 1 as [| x l Hs IH Hall]; constructor; [| exact IH].
  intros Hin. rewrite Forall_forall in Hall. specialize (Hall x Hin). lia.
Qed.

Lemma Zsum_map_add (f g : Z -> Z) (ks : list Z) :
  Zsum (map (fun k => f k + g k) ks) = Zsum (map f ks) + Zsum (map g ks).
Proof.
  induction ks as [| k ks IH]; cbn [map Zsum fold_right]; [reflexivity |].
  fold (Zsum (map (fun k => f k + g k) ks)) (Zsum (map f ks)) (Zsum (map g ks)).
  lia.
Qed.

(** A key occurs once among distinct keys. *)
Lemma Zsum_indicator (x : Z) (ks : list Z) :
  NoDup ks ->
  Zsum (map (fun k => Z.b2z (x =? k)) ks) = if in_dec Z.eq_dec x ks then 1 else 0.
Proof.
  induction 1 as [| k ks Hnin Hnd IH]; [reflexivity |].
  cbn [map Zsum fold_right]. fold (Zsum (map (fun k => Z.b2z (x =? k)) ks)).
  rewrite IH.
  destruct (Z.eqb_spec x k) as [-> | Hne].
  - destruct (in_dec Z.eq_dec k ks) as [Hin | _]; [contradiction |].
    destruct (in_dec Z.eq_dec k (k :: ks)) as [_ | Hno]; [reflexivity |].
    exfalso. apply Hno. now left.
  - destruct (in_dec Z.eq_dec x ks) as [Hin | Hno];
      destruct (in_dec Z.eq_dec x (k :: ks)) as [Hin' | Hno']; cbn; try reflexivity.
    + exfalso. apply Hno'. now right.
    + destruct Hin' as [Heq | Hin']; [congruence | contradiction].
Qed.

(** Distinct keys that cover the days of the ledger split it: the group
    sizes add up to the ledger size. *)
Lemma group_sizes_sum (ks : list Z) (df : DataFrame) :
  NoDup ks ->
  (forall r, In r df -> In (dt_date (date r)) ks) ->
  Zsum (map (fun k => count_where (on_day k) df) ks) = Z.of_nat (List.length df).
Proof.
  intros Hnd. induction df as [| r df IH]; intros Hcover.
  - unfold count_where. cbn [filter List.length]. clear.
    induction ks as [| k ks IH]; [reflexivity |]. cbn [map Zsum fold_right].
    fold (Zsum (map (fun _ : Z => Z.of_nat 0) ks)). rewrite IH. reflexivity.
  - rewrite (map_ext _ (fun k => Z.b2z (dt_date (date r) =? k)
                                 + count_where (on_day k) df)).
    + rewrite Zsum_map_add, IH, (Zsum_indicator _ _ Hnd).
      * destruct (in_dec Z.eq_dec (dt_date (date r)) ks) as [_ | Hno].
        -- cbn [List.length]. lia.
        -- exfalso. apply Hno, Hcover. now left.
      * intros r' Hr'. apply Hcover. now right.
    + intros k. unfold count_where. cbn [filter].
      change (on_day k r) with (dt_date (date r) =? k).
      destruct (dt_date (date r) =? k); cbn [List.length Z.b2z]; lia.
Qed.

Lemma count_where_filter (p q : Transaction -> bool) (df : DataFrame) :
  count_where p (filter q df) = count_where (fun r => q r && p r) df.
Proof.
  unfold count_where. f_equal. f_equal.
  induction df as [| r df IH]; cbn [filter]; [reflexivity |].
  destruct (q r); cbn [filter andb]; [destruct (p r) |]; now rewrite IH.
Qed.

Lemma count_where_le_length (p : Transaction -> bool) (df : DataFrame) :
  0 <= count_where p df <= Z.of_nat (List.length df).
Proof.
  unfold count_where. pose proof (filter_length_le p df). lia.
Qed.

Lemma daily_fraud_dates (df : DataFrame) :
  map daily_date (daily_fraud df) = group_keys (map (fun r => dt_date (date r)) df).
Proof.
  unfold daily_fraud. rewrite map_map. cbn [daily_date]. apply map_id.
Qed.

Lemma daily_fraud_counts (df : DataFrame) :
  map daily_transaction_id (daily_fraud df)
  = map (fun k => count_where (on_day k) df)
        (group_keys (map (fun r => dt_date (date r)) df)).
Proof.
  unfold daily_fraud. rewrite map_map. apply map_ext. intros k.
  cbn [daily_transaction_id]. now rewrite length_map.
Qed.

Lemma dt_date_ignores_time (day t : Z) :
  0 <= t < ns_per_day -> dt_date (day * ns_per_day + t) = day.
Proof.
  intros Ht. unfold dt_date.
  rewrite Z.add_comm, Z.div_add by (unfold ns_per_day; lia).
  rewrite Z.div_small by exact Ht. reflexivity.
Qed.

(** The rate of a day with [f] frauds among [c] records is the double
    nearest to a whole number [k] of hundredths; [k / 100] is a hundredth
    nearest to [f / c * 100]. *)
Lemma rate_is_nearest_hundredth (f c : Z) :
  0 <= f <= c -> 0 < c ->
  exists k : Z,
    0 <= k <= 10000
    /\ series_round 2 (series_mul (series_true_divide f c) 100)
       = Finite (to_float64 (k # 100))
    /\ (c <= 2 ^ 30 ->
        (Qabs ((k # 100) - inject_Z f / inject_Z c * 100) <= 1 # 200)%Q).
Proof.
  intros Hf Hc. unfold series_true_divide.
  destruct (Z.eqb_spec c 0) as [H0 | _]; [lia |].
  cbn [series_mul series_round]. change (pow10 2) with 100%positive.
  change (inject_Z 100) with 100%Q.
  set (F := to_float64 (inject_Z f)). set (C := to_float64 (inject_Z c)).
  set (x1 := to_float64 (F / C)).
  set (x2 := to_float64 (x1 * 100)).
  set (x3 := to_float64 (x2 * 100)).
  assert (HF0 : (0 <= F)%Q).
  { apply to_float64_nonneg. change 0%Q with (inject_Z 0). rewrite <- Zle_Qle. lia. }
  assert (HFC : (F <= C)%Q).
  { apply to_float64_mono.
    - change 0%Q with (inject_Z 0). rewrite <- Zle_Qle. lia.
    - rewrite <- Zle_Qle. lia. }
  assert (HC1 : (1 <= C)%Q).
  { assert (H1 : (to_float64 (inject_Z 1) <= C)%Q).
    { apply to_float64_mono; [change (inject_Z 1) with 1%Q; lra |]. rewrite <- Zle_Qle. lia. }
    rewrite to_float64_exact_Z in H1 by lia. exact H1. }
  assert (Hr : (0 <= F / C /\ F / C <= 1)%Q).
  { split.
    - apply Qle_shift_div_l; lra.
    - apply Qle_shift_div_r; lra. }
  assert (Hx1 : (0 <= x1 /\ x1 <= 1)%Q).
  { split; [apply to_float64_nonneg; lra |].
    apply (to_float64_le_Z _ 1); [lra | change (inject_Z 1) with 1%Q; lra | lia]. }
  assert (Hx2 : (0 <= x2 /\ x2 <= 100)%Q).
  { split; [apply to_float64_nonneg; lra |].
    apply (to_float64_le_Z _ 100); [lra | change (inject_Z 100) with 100%Q; lra | lia]. }
  assert (Hx3 : (0 <= x3 /\ x3 <= 10000)%Q).
  { split; [apply to_float64_nonneg; lra |].
    apply (to_float64_le_Z _ 10000); [lra | change (inject_Z 10000) with 10000%Q; lra | lia]. }
  exists (rint x3).
  split; [split; [apply rint_ge; change (inject_Z 0) with 0%Q | apply rint_le; change (inject_Z 10000) with 10000%Q]; lra |].
  split.
  { f_equal. apply to_float64_eq. rewrite (Qmake_Qdiv (rint x3) 100). reflexivity. }
  intros Hsmall. change (2 ^ 30) with 1073741824 in Hsmall.
  assert (HFe : (F == inject_Z f)%Q) by (apply to_float64_exact_Z; lia).
  assert (HCe : (C == inject_Z c)%Q) by (apply to_float64_exact_Z; lia).
  assert (Hcq : (1 <= inject_Z c /\ inject_Z c <= 1073741824)%Q).
  { rewrite <- HCe. split; [exact HC1 |]. rewrite HCe.
    change 1073741824%Q with (inject_Z 1073741824). rewrite <- Zle_Qle. lia. }
  set (q := (inject_Z f / inject_Z c)%Q).
  assert (Hq : (q * inject_Z c == inject_Z f)%Q).
  { unfold q. field. lra. }
  assert (Hrq : (F / C == q)%Q) by (unfold q; now rewrite HFe, HCe).
  assert (E1 : (x1 - q <= pow2 (0 - 53) /\ q - x1 <= pow2 (0 - 53))%Q).
  { rewrite <- Hrq. apply to_float64_error; [lra | | lia].
    change (pow2 0) with 1%Q. lra. }
  assert (E2 : (x2 - x1 * 100 <= pow2 (7 - 53) /\ x1 * 100 - x2 <= pow2 (7 - 53))%Q).
  { apply to_float64_error; [lra | | lia].
    assert (P : (pow2 7 == 128)%Q) by (vm_compute; reflexivity). lra. }
  assert (E3 : (x3 - x2 * 100 <= pow2 (14 - 53) /\ x2 * 100 - x3 <= pow2 (14 - 53))%Q).
  { apply to_float64_error; [lra | | lia].
    assert (P : (pow2 14 == 16384)%Q) by (vm_compute; reflexivity). lra. }
  assert (P53 : (pow2 (0 - 53) == 1 # 9007199254740992)%Q) by (vm_compute; reflexivity).
  assert (P46 : (pow2 (7 - 53) == 1 # 70368744177664)%Q) by (vm_compute; reflexivity).
  assert (P39 : (pow2 (14 - 53) == 1 # 549755813888)%Q) by (vm_compute; reflexivity).
  rewrite P53 in E1. rewrite P46 in E2. rewrite P39 in E3.
  destruct (rint_error x3) as [R1 R2].
  set (K := inject_Z (rint x3)) in *.
  set (e := (1 # 137438953472)%Q).
  assert (Hup : (K - 10000 * q <= (1 # 2) + e)%Q) by (unfold e; lra).
  assert (Hdn : (10000 * q - K <= (1 # 2) + e)%Q) by (unfold e; lra).
  assert (Hup' : (2 * (K * inject_Z c - 10000 * inject_Z f) < inject_Z c + 1)%Q).
  { rewrite <- Hq. unfold e in Hup. nra. }
  assert (Hdn' : (2 * (10000 * inject_Z f - K * inject_Z c) < inject_Z c + 1)%Q).
  { rewrite <- Hq. unfold e in Hdn. nra. }
  assert (Zup : 2 * (rint x3 * c - 10000 * f) <= c).
  { apply Z.lt_succ_r. unfold Z.succ. rewrite Zlt_Qlt.
    unfold Z.sub. rewrite !inject_Z_mult, !inject_Z_plus, !inject_Z_mult,
                    inject_Z_opp, !inject_Z_mult.
    fold K. change (inject_Z 2) with 2%Q. change (inject_Z 10000) with 10000%Q.
    change (inject_Z 1) with 1%Q. lra. }
  assert (Zdn : 2 * (10000 * f - rint x3 * c) <= c).
  { apply Z.lt_succ_r. unfold Z.succ. rewrite Zlt_Qlt.
    unfold Z.sub. rewrite !inject_Z_mult, !inject_Z_plus, !inject_Z_mult,
                    inject_Z_opp, !inject_Z_mult.
    fold K. change (inject_Z 2) with 2%Q. change (inject_Z 10000) with 10000%Q.
    change (inject_Z 1) with 1%Q. lra. }
  assert (Qup : (2 * (K * inject_Z c - 10000 * inject_Z f) <= inject_Z c)%Q).
  { rewrite Zle_Qle in Zup. unfold Z.sub in Zup.
    rewrite !inject_Z_mult, !inject_Z_plus, !inject_Z_mult,
      inject_Z_opp, !inject_Z_mult in Zup.
    fold K in Zup. change (inject_Z 2) with 2%Q in Zup.
    change (inject_Z 10000) with 10000%Q in Zup. lra. }
  assert (Qdn : (2 * (10000 * inject_Z f - K * inject_Z c) <= inject_Z c)%Q).
  { rewrite Zle_Qle in Zdn. unfold Z.sub in Zdn.
    rewrite !inject_Z_mult, !inject_Z_plus, !inject_Z_mult,
      inject_Z_opp, !inject_Z_mult in Zdn.
    fold K in Zdn. change (inject_Z 2) with 2%Q in Zdn.
    change (inject_Z 10000) with 10000%Q in Zdn. lra. }
  rewrite <- Hq in Qup, Qdn.
  apply Qabs_Qle_condition. rewrite (Qmake_Qdiv (rint x3) 100). fold K. fold q.
  change (inject_Z 100) with 100%Q.
  split.
  - assert (Hg : (10000 * q - K <= 1 # 2)%Q) by nra.
    assert (Hd : (K / 100 == K * (1 # 100))%Q) by (field).
    rewrite Hd. lra.
  - assert (Hg : (K - 10000 * q <= 1 # 2)%Q) by nra.
    assert (Hd : (K / 100 == K * (1 # 100))%Q) by (field).
    rewrite Hd. lra.
Qed.

(** C7: the daily series has one entry per calendar day present in the
    ledger (the time of day plays no part), in ascending order of day; an
    entry reports the number of records of its day, the number of
    fraudulent ones among them, and their ratio times 100 rounded to two
    decimals: the rate stored is the double nearest to a whole number [k]
    of hundredths between 0 and 100, and (for a day of at most 2^30
    records) no hundredth is nearer to the ratio times 100 than [k / 100];
    the per-day record counts add up to the ledger size. *)
Theorem daily_series (df : DataFrame) :
  StronglySorted Z.lt (map daily_date (daily_fraud df))
  /\ (forall k, In k (map daily_date (daily_fraud df))
                <-> exists r, In r df /\ dt_date (date r) = k)
  /\ (forall day t, 0 <= t < ns_per_day -> dt_date (day * ns_per_day + t) = day)
  /\ (forall d, In d (daily_fraud df) ->
        daily_transaction_id d = count_where (on_day (daily_date d)) df
        /\ daily_is_fraud d
           = count_where (fun r => on_day (daily_date d) r && is_fraud r) df
        /\ 0 <= daily_is_fraud d <= daily_transaction_id d
        /\ 0 < daily_transaction_id d
        /\ exists k : Z,
             0 <= k <= 10000
             /\ daily_fraud_rate d = Finite (to_float64 (k # 100))
             /\ (daily_transaction_id d <= 2 ^ 30 ->
                 (Qabs ((k # 100)
                        - inject_Z (daily_is_fraud d)
                          / inject_Z (daily_transaction_id d) * 100)
                  <= 1 # 200)%Q))
  /\ Zsum (map daily_transaction_id (daily_fraud df)) = total_transactions df.
Proof.
  assert (Hkeys : forall k, In k (group_keys (map (fun r => dt_date (date r)) df))
                            <-> exists r, In r df /\ dt_date (date r) = k).
  { intros k. rewrite group_keys_In, in_map_iff. split.
    - intros (r & Hday & Hr). now exists r.
    - intros (r & Hr & Hday). now exists r. }
  split; [rewrite daily_fraud_dates; apply group_keys_sorted |].
  split; [intros k; rewrite daily_fraud_dates; apply Hkeys |].
  split; [exact dt_date_ignores_time |].
  split.
  - intros d Hd. unfold daily_fraud in Hd.
    apply in_map_iff in Hd as (k & <- & Hk).
    cbn [daily_transaction_id daily_is_fraud daily_fraud_rate daily_date].
    rewrite length_map, bool_sum_count, count_where_filter.
    fold (count_where (on_day k) df).
    assert (Hpos : 0 < count_where (on_day k) df).
    { apply Hkeys in Hk as (r & Hr & Hday).
      assert (Hin : In r (filter (on_day k) df)).
      { apply filter_In. split; [exact Hr |]. unfold on_day. now apply Z.eqb_eq. }
      unfold count_where. destruct (filter (on_day k) df); [contradiction |].
      cbn [List.length]. lia. }
    assert (Hle : 0 <= count_where (fun r => on_day k r && is_fraud r) df
                  <= count_where (on_day k) df).
    { rewrite <- count_where_filter.
      pose proof (count_where_le_length is_fraud (filter (on_day k) df)) as Hc.
      unfold count_where at 3. exact Hc. }
    split; [reflexivity |]. split; [reflexivity |].
    split; [exact Hle |]. split; [exact Hpos |].
    exact (rate_is_nearest_hundredth _ _ Hle Hpos).
  - rewrite daily_fraud_counts. unfold total_transactions.
    apply group_sizes_sum.
    + apply sorted_lt_NoDup, group_keys_sorted.
    + intros r Hr. apply group_keys_In, in_map_iff. now exists r.
Qed.

(** *** Highest risk scores *)

Lemma ranked_before_score (x y : Indexed) :
  ranked_before x y -> (score y <= score x)%Q.
Proof. unfold score. intros [Hlt | [Heq _]]; [lra | rewrite Heq; lra]. Qed.

Lemma insert_desc_Permutation (x : Indexed) (l : list Indexed) :
  Permutation (insert_desc x l) (x :: l).
Proof.
  induction l as [| y l IH]; cbn [insert_desc]; [reflexivity |].
  destruct (Qgtb (score y) (score x)); [| reflexivity].
  rewrite IH. apply perm_swap.
Qed.

Lemma sort_desc_Permutation (l : list Indexed) : Permutation (sort_desc l) l.
Proof.
  induction l as [| x l IH]; cbn [sort_desc fold_right]; [reflexivity |].
  fold (sort_desc l). rewrite insert_desc_Permutation. now constructor.
Qed.

(** Inserting a row that precedes, in the ledger, every row already
    sorted keeps the ranking order. *)
Lemma insert_desc_sorted (x : Indexed) (l : list Indexed) :
  (forall y, In y l -> (fst x < fst y)%nat) ->
  StronglySorted ranked_before l ->
  StronglySorted ranked_before (insert_desc x l).
Proof.
  intros Hidx Hs. induction Hs as [| y l Hs IH Hall]; cbn [insert_desc].
  - repeat constructor.
  - destruct (Qgtb (score y) (score x)) eqn:Hc.
    + constructor.
      * apply IH. intros z Hz. apply Hidx. now right.
      * apply Forall_forall. intros z Hz.
        apply (Permutation_in _ (insert_desc_Permutation x l)) in Hz.
        destruct Hz as [<- | Hz].
        -- left. apply Qgtb_true in Hc. exact Hc.
        -- rewrite Forall_forall in Hall. now apply Hall.
    + apply Qgtb_false in Hc.
      constructor; [now constructor |].
      apply Forall_forall. intros z Hz.
      assert (Hzx : (score z <= score x)%Q).
      { destruct Hz as [<- | Hz]; [exact Hc |].
        rewrite Forall_forall in Hall.
        pose proof (ranked_before_score _ _ (Hall z Hz)). lra. }
      unfold score in Hzx.
      destruct (Qlt_le_dec (risk_score (snd z)) (risk_score (snd x))) as [Hlt | Hle].
      * now left.
      * right. split; [lra | now apply Hidx].
Qed.

Lemma sort_desc_sorted (l : list Indexed) :
  StronglySorted lt (map fst l) ->
  StronglySorted ranked_before (sort_desc l).
Proof.
  induction l as [| x l IH]; cbn [map sort_desc fold_right]; intros Hs.
  - constructor.
  - fold (sort_desc l). inversion Hs as [| ? ? Hs' Hall]; subst.
    apply insert_desc_sorted; [| now apply IH].
    intros y Hy. apply (Permutation_in _ (sort_desc_Permutation l)) in Hy.
    rewrite Forall_forall in Hall. apply Hall. now apply in_map.
Qed.

Lemma seq_sorted (s n : nat) : StronglySorted lt (seq s n).
Proof.
  revert s. induction n as [| n IH]; intros s; cbn [seq]; constructor.
  - apply IH.
  - apply Forall_forall. intros y Hy. apply in_seq in Hy. lia.
Qed.

Lemma with_index_fst (df : DataFrame) :
  map fst (with_index df) = seq 0 (List.length df).
Proof.
  unfold with_index. generalize 0%nat as s.
  induction df as [| r df IH]; intros s; cbn [List.length seq combine map fst];
    [reflexivity |].
  now rewrite IH.
Qed.

Lemma with_index_length (df : DataFrame) :
  List.length (with_index df) = List.length df.
Proof.
  unfold with_index. change Indexed with (nat * Transaction)%type.
  rewrite length_combine, length_seq. apply Nat.min_id.
Qed.

Lemma combine_seq_nth_error (df : DataFrame) (s i : nat) (r : Transaction) :
  In (i, r) (combine (seq s (List.length df)) df) ->
  (s <= i)%nat /\ nth_error df (i - s) = Some r.
Proof.
  revert s. induction df as [| r' df IH]; intros s; cbn [List.length seq combine].
  - intros [].
  - intros [Heq | Hin].
    + injection Heq as <- <-. rewrite Nat.sub_diag. split; [lia | reflexivity].
    + apply IH in Hin as [Hle Hn]. split; [lia |].
      replace (i - s)%nat with (S (i - S s)) by lia. exact Hn.
Qed.

Lemma with_index_nth_error (df : DataFrame) (x : Indexed) :
  In x (with_index df) -> nth_error df (fst x) = Some (snd x).
Proof.
  destruct x as [i r]. intros Hin.
  apply combine_seq_nth_error in Hin as [_ Hn].
  now rewrite Nat.sub_0_r in Hn.
Qed.

Lemma StronglySorted_app_inv {A} (R : A -> A -> Prop) (l1 l2 : list A) :
  StronglySorted R (l1 ++ l2) ->
  StronglySorted R l1 /\ forall x y, In x l1 -> In y l2 -> R x y.
Proof.
  induction l1 as [| a l1 IH]; cbn [app]; intros Hs.
  - split; [constructor | intros x y []].
  - inversion Hs as [| ? ? Hs' Hall]; subst.
    destruct (IH Hs') as [Hs1 Hcross]. split.
    + constructor; [exact Hs1 |].
      apply Forall_forall. intros z Hz. rewrite Forall_forall in Hall.
      apply Hall, in_or_app. now left.
    + intros x y [<- | Hx] Hy.
      * rewrite Forall_forall in Hall. apply Hall, in_or_app. now right.
      * now apply Hcross.
Qed.

(** C8, as stated, fails on the fields: the records handed to the table
    come from [to_dict("records")] on whole rows, so each carries
    [country] and [user_id] besides the six fields of the claim. *)
Lemma table_records_carry_country :
  exists d,
    In d (high_risk_table three_rows)
    /\ dict_get "country" d = Some (CStr "US")
    /\ dict_get "user_id" d = Some (CStr "USER1001")
    /\ ~ In "country"%string table_columns.
Proof.
  exists (to_dict (nth 1 three_rows blank)).
  split; [left; reflexivity |]. split; [reflexivity |]. split; [reflexivity |].
  cbn. intros [H | [H | [H | [H | [H | [H | []]]]]]]; discriminate H.
Qed.

(** C8 (amended): the table receives min(10, N) records, one per ranked
    row and in the order of the ranking; the ranking is in descending
    order of risk_score, rows of equal risk_score in ledger order; every
    row left out is ranked after every row kept, so no excluded
    risk_score exceeds a kept one; each record carries all eight fields of
    its ledger row (country and user_id included), and the table declares
    the six columns date, transaction_id, amount, merchant, risk_score and
    is_fraud, each of which is a key of every record. *)
Theorem top_ranking (df : DataFrame) :
  List.length (high_risk_table df) = Nat.min 10 (List.length df)
  /\ StronglySorted ranked_before (nlargest 10 df)
  /\ (forall x, In x (nlargest 10 df) -> nth_error df (fst x) = Some (snd x))
  /\ (forall x y, In x (nlargest 10 df) -> In y (with_index df) ->
                  ~ In y (nlargest 10 df) ->
                  ranked_before x y
                  /\ (risk_score (snd y) <= risk_score (snd x))%Q)
  /\ (forall j x, nth_error (nlargest 10 df) j = Some x ->
        exists d,
          nth_error (high_risk_table df) j = Some d
          /\ map fst d = frame_columns
          /\ dict_get "date" d = Some (CTime (date (snd x)))
          /\ dict_get "transaction_id" d = Some (CStr (transaction_id (snd x)))
          /\ dict_get "amount" d = Some (CNum (amount (snd x)))
          /\ dict_get "merchant" d = Some (CStr (Merchant_name (merchant (snd x))))
          /\ dict_get "risk_score" d = Some (CNum (risk_score (snd x)))
          /\ dict_get "is_fraud" d = Some (CBool (is_fraud (snd x)))
          /\ dict_get "country" d = Some (CStr (Country_name (country (snd x))))
          /\ dict_get "user_id" d = Some (CStr (user_id (snd x))))
  /\ table_columns
     = [ "date"; "transaction_id"; "amount"; "merchant"; "risk_score";
         "is_fraud" ]%string
  /\ (forall c, In c table_columns -> In c frame_columns)
  /\ (In "country"%string frame_columns /\ ~ In "country"%string table_columns)
  /\ (In "user_id"%string frame_columns /\ ~ In "user_id"%string table_columns).
Proof.
  pose proof (sort_desc_Permutation (with_index df)) as Hperm.
  assert (Hsorted : StronglySorted ranked_before (sort_desc (with_index df))).
  { apply sort_desc_sorted. rewrite with_index_fst. apply seq_sorted. }
  rewrite <- (firstn_skipn 10 (sort_desc (with_index df))) in Hsorted.
  apply StronglySorted_app_inv in Hsorted as [Htop Hcross].
  unfold high_risk_table, nlargest in *.
  split.
  { rewrite length_map, length_firstn, (Permutation_length Hperm), with_index_length.
    reflexivity. }
  split; [exact Htop |].
  split.
  { intros x Hx. apply with_index_nth_error.
    apply (Permutation_in _ Hperm).
    rewrite <- (firstn_skipn 10 (sort_desc (with_index df))).
    apply in_or_app. now left. }
  split.
  { intros x y Hx Hy Hny.
    assert (Hskip : In y (skipn 10 (sort_desc (with_index df)))).
    { apply (Permutation_in _ (Permutation_sym Hperm)) in Hy.
      rewrite <- (firstn_skipn 10 (sort_desc (with_index df))) in Hy.
      apply in_app_or in Hy as [Hy | Hy]; [contradiction | exact Hy]. }
    pose proof (Hcross x y Hx Hskip) as Hxy.
    split; [exact Hxy | exact (ranked_before_score _ _ Hxy)]. }
  split.
  { intros j x Hj. exists (to_dict (snd x)).
    split; [exact (map_nth_error (fun x => to_dict (snd x)) _ _ Hj) |].
    repeat split. }
  split; [reflexivity |].
  split.
  { intros c Hc. cbn in Hc. cbn.
    destruct Hc as [<- | [<- | [<- | [<- | [<- | [<- | []]]]]]]; tauto. }
  split.
  - split; [cbn; tauto |].
    cbn. intros [H | [H | [H | [H | [H | [H | []]]]]]]; discriminate H.
  - split; [cbn; tauto |].
    cbn. intros [H | [H | [H | [H | [H | [H | []]]]]]]; discriminate H.
Qed.

(** *** Timestamps *)

(** **** The grid in doubles *)

Lemma pow2_m52 : (pow2 (-52) == 1 # 4503599627370496)%Q.
Proof. vm_compute. reflexivity. Qed.

Lemma inject_Z_bounds (z lo hi : Z) :
  lo <= z <= hi -> (inject_Z lo <= inject_Z z /\ inject_Z z <= inject_Z hi)%Q.
Proof. intros Hz. rewrite <- !Zle_Qle. exact Hz. Qed.

(** The step of the grid, [span / m] rounded to a double, is off by at
    most a relative [2^-52]. *)
Lemma step_bounds (span m : Z) :
  0 <= span < 2 ^ 52 -> 1 <= m <= 2 ^ 52 ->
  (0 <= to_float64 (inject_Z span / inject_Z m)
   /\ to_float64 (inject_Z span / inject_Z m) - inject_Z span / inject_Z m
      <= inject_Z span / inject_Z m * (1 # 4503599627370496)
   /\ inject_Z span / inject_Z m - to_float64 (inject_Z span / inject_Z m)
      <= inject_Z span / inject_Z m * (1 # 4503599627370496))%Q.
Proof.
  intros Hs Hm. change (2 ^ 52) with 4503599627370496 in *.
  destruct (inject_Z_bounds m 1 4503599627370496 Hm) as [Hm1 Hm2].
  change (inject_Z 1) with 1%Q in Hm1.
  change (inject_Z 4503599627370496) with 4503599627370496%Q in Hm2.
  destruct (Z.eq_dec span 0) as [-> | Hne].
  - assert (H0 : (inject_Z 0 / inject_Z m == 0)%Q) by (field; lra).
    rewrite (to_float64_0 _ H0). rewrite H0. lra.
  - destruct (inject_Z_bounds span 1 4503599627370496 ltac:(lia)) as [Hs1 _].
    change (inject_Z 1) with 1%Q in Hs1.
    set (s := (inject_Z span / inject_Z m)%Q).
    assert (Hsm : (s * inject_Z m == inject_Z span)%Q) by (unfold s; field; lra).
    assert (Hlow : (1 # 4503599627370496 <= s)%Q) by nra.
    assert (Hp : (pow2 (-1022) <= s)%Q).
    { assert (Hpp : (pow2 (-1022) <= pow2 (-52))%Q) by (apply pow2_le; lia).
      rewrite pow2_m52 in Hpp. lra. }
    destruct (to_float64_error_rel s Hp) as [E1 E2].
    rewrite pow2_m52 in E1, E2.
    split; [apply to_float64_nonneg; lra |]. split; assumption.
Qed.

(** The double [i * step] before flooring: within 3/2 of [i * span / m],
    never negative, and not beyond [span] before the last point. *)
Lemma point_value_bounds (span m i : Z) :
  0 <= span < 2 ^ 52 -> 1 <= m <= 2 ^ 52 -> 0 <= i <= m ->
  (0 <= to_float64 (inject_Z i * to_float64 (inject_Z span / inject_Z m))
   /\ to_float64 (inject_Z i * to_float64 (inject_Z span / inject_Z m))
      - inject_Z i * inject_Z span / inject_Z m < 3 # 2
   /\ inject_Z i * inject_Z span / inject_Z m
      - to_float64 (inject_Z i * to_float64 (inject_Z span / inject_Z m)) < 3 # 2
   /\ ((i < m)%Z ->
       to_float64 (inject_Z i * to_float64 (inject_Z span / inject_Z m))
       <= inject_Z span))%Q.
Proof.
  intros Hs Hm Hi.
  destruct (step_bounds span m Hs Hm) as (Hst0 & Hst1 & Hst2).
  change (2 ^ 52) with 4503599627370496 in *.
  destruct (inject_Z_bounds m 1 4503599627370496 Hm) as [Hm1 Hm2].
  destruct (inject_Z_bounds span 0 4503599627370495 ltac:(lia)) as [Hs1 Hs2].
  destruct (inject_Z_bounds i 0 m Hi) as [Hi1 Hi2].
  change (inject_Z 1) with 1%Q in Hm1. change (inject_Z 0) with 0%Q in Hs1, Hi1.
  change (inject_Z 4503599627370496) with 4503599627370496%Q in Hm2.
  change (inject_Z 4503599627370495) with 4503599627370495%Q in Hs2.
  set (S := inject_Z span) in *. set (M := inject_Z m) in *. set (I := inject_Z i) in *.
  set (s := (S / M)%Q) in *. set (st := to_float64 s) in *.
  assert (Hsm : (s * M == S)%Q) by (unfold s; field; lra).
  assert (Hs0 : (0 <= s)%Q) by nra.
  assert (Hideal : (I * S / M == I * s)%Q) by (unfold s; field; lra).
  rewrite Hideal.
  assert (His : (I * s <= S)%Q) by nra.
  assert (Hup : (I * st - I * s <= S * (1 # 4503599627370496))%Q) by nra.
  assert (Hdn : (I * s - I * st <= S * (1 # 4503599627370496))%Q) by nra.
  assert (HP0 : (0 <= I * st)%Q) by nra.
  assert (HP1 : (I * st <= pow2 52)%Q).
  { assert (P : (pow2 52 == 4503599627370496)%Q) by (vm_compute; reflexivity).
    rewrite P. lra. }
  destruct (to_float64_error (I * st) 52 HP0 HP1 ltac:(lia)) as [F1 F2].
  assert (P : (pow2 (52 - 53) == 1 # 2)%Q) by (vm_compute; reflexivity).
  rewrite P in F1, F2.
  split; [apply to_float64_nonneg; exact HP0 |].
  split; [lra |]. split; [lra |].
  intros Hlt.
  destruct (inject_Z_bounds (i + 1) 0 m ltac:(lia)) as [_ Hi3].
  rewrite inject_Z_plus in Hi3. change (inject_Z 1) with 1%Q in Hi3.
  fold I M in Hi3.
  apply (to_float64_le_Z _ span); [exact HP0 | | lia].
  fold S.
  assert (H1 : (0 <= (M - 1 - I) * st)%Q) by (apply Qmult_le_0_compat; lra).
  assert (H2 : (0 <= (M - 1) * (s + s * (1 # 4503599627370496) - st))%Q)
    by (apply Qmult_le_0_compat; lra).
  assert (H3 : (0 <= s * (1 - (M - 1) * (1 # 4503599627370496)))%Q)
    by (apply Qmult_le_0_compat; lra).
  lra.
Qed.

(** Before the last point, point [i] is the floor of the double
    [i * step], whichever way numpy forms it. *)
Lemma linspace_point_inner (span n : Z) (i : nat) :
  2 <= n <= 2 ^ 52 -> 0 <= span < 2 ^ 52 -> Z.of_nat i < n - 1 ->
  linspace_point span n i
  = Qfloor (to_float64 (inject_Z (Z.of_nat i)
                        * to_float64 (inject_Z span / inject_Z (n - 1)))).
Proof.
  intros Hn Hs Hi. unfold linspace_point.
  destruct (Z.eqb_spec n 1) as [H1 | _]; [lia |].
  destruct (Z.eqb_spec (Z.of_nat i) (n - 1)) as [H1 | _]; [lia |].
  change (2 ^ 52) with 4503599627370496 in *.
  assert (Hd : (to_float64 (inject_Z span) == inject_Z span)%Q).
  { apply to_float64_exact_Z. change (2 ^ 53) with 9007199254740992. lia. }
  assert (Hm : (to_float64 (inject_Z (n - 1)) == inject_Z (n - 1))%Q).
  { apply to_float64_exact_Z. change (2 ^ 53) with 9007199254740992. lia. }
  assert (Hfi : (to_float64 (inject_Z (Z.of_nat i)) == inject_Z (Z.of_nat i))%Q).
  { apply to_float64_exact_Z. change (2 ^ 53) with 9007199254740992. lia. }
  assert (Hst : to_float64 (to_float64 (inject_Z span) / to_float64 (inject_Z (n - 1)))
                = to_float64 (inject_Z span / inject_Z (n - 1))).
  { apply to_float64_eq. now rewrite Hd, Hm. }
  rewrite Hst.
  set (st := to_float64 (inject_Z span / inject_Z (n - 1))).
  destruct (Qeq_bool st 0) eqn:E.
  - apply Qeq_bool_iff in E.
    assert (Hspan0 : span = 0).
    { destruct (Z.eq_dec span 0) as [H0 | Hne]; [exact H0 | exfalso].
      destruct (step_bounds span (n - 1)) as (_ & _ & Hlo);
        [change (2 ^ 52) with 4503599627370496; lia
        | change (2 ^ 52) with 4503599627370496; lia |].
      fold st in Hlo. rewrite E in Hlo.
      destruct (inject_Z_bounds span 1 4503599627370496 ltac:(lia)) as [Hs1 _].
      destruct (inject_Z_bounds (n - 1) 1 4503599627370496 ltac:(lia)) as [Hm1 _].
      change (inject_Z 1) with 1%Q in Hs1, Hm1.
      assert (Hpos : (0 < inject_Z span / inject_Z (n - 1))%Q).
      { apply Qlt_shift_div_l; lra. }
      lra. }
    subst span.
    assert (Ha : (to_float64 (to_float64 (inject_Z (Z.of_nat i))
                              / to_float64 (inject_Z (n - 1)))
                  * to_float64 (inject_Z 0) == 0)%Q).
    { rewrite (to_float64_0 (inject_Z 0)) by reflexivity. ring. }
    assert (Hb : (inject_Z (Z.of_nat i) * st == 0)%Q) by (rewrite E; ring).
    rewrite (to_float64_0 _ Ha), (to_float64_0 _ Hb). reflexivity.
  - apply Qfloor_comp, to_float64_comp. now rewrite Hfi.
Qed.

Lemma linspace_point_last (span n : Z) :
  2 <= n -> 0 <= span < 2 ^ 53 ->
  linspace_point span n (Z.to_nat n - 1) = span.
Proof.
  intros Hn Hs. unfold linspace_point.
  destruct (Z.eqb_spec n 1) as [H1 | _]; [lia |].
  destruct (Z.eqb_spec (Z.of_nat (Z.to_nat n - 1)) (n - 1)) as [_ | Hne]; [| lia].
  rewrite (Qfloor_comp _ _ (to_float64_exact_Z span Hs)). apply Qfloor_Z.
Qed.

Lemma linspace_point_first (span n : Z) :
  2 <= n <= 2 ^ 52 -> 0 <= span < 2 ^ 52 -> linspace_point span n 0 = 0.
Proof.
  intros Hn Hs. rewrite linspace_point_inner by (cbn [Z.of_nat]; lia).
  cbn [Z.of_nat].
  assert (H0 : (inject_Z 0 * to_float64 (inject_Z span / inject_Z (n - 1)) == 0)%Q)
    by ring.
  rewrite (to_float64_0 _ H0). reflexivity.
Qed.

(** Every point is within 5/2 of the even spacing. *)
Lemma linspace_point_near (span n : Z) (i : nat) :
  2 <= n <= 2 ^ 52 -> 0 <= span < 2 ^ 52 -> (i < Z.to_nat n)%nat ->
  (- (5 # 2) < inject_Z (linspace_point span n i)
               - inject_Z (Z.of_nat i) * inject_Z span / inject_Z (n - 1)
   /\ inject_Z (linspace_point span n i)
      - inject_Z (Z.of_nat i) * inject_Z span / inject_Z (n - 1) < 3 # 2)%Q.
Proof.
  intros Hn Hs Hi.
  destruct (Z.eq_dec (Z.of_nat i) (n - 1)) as [Hlast | Hin].
  - replace i with (Z.to_nat n - 1)%nat by lia.
    rewrite linspace_point_last by (change (2 ^ 53) with 9007199254740992;
                                    change (2 ^ 52) with 4503599627370496 in *; lia).
    replace (Z.of_nat (Z.to_nat n - 1)) with (n - 1) by lia.
    assert (Hm : (1 <= inject_Z (n - 1))%Q).
    { change 1%Q with (inject_Z 1). rewrite <- Zle_Qle. lia. }
    assert (He : (inject_Z (n - 1) * inject_Z span / inject_Z (n - 1)
                  == inject_Z span)%Q) by (field; lra).
    rewrite He. lra.
  - rewrite linspace_point_inner by lia.
    destruct (point_value_bounds span (n - 1) (Z.of_nat i)) as (_ & Hup & Hdn & _);
      [lia | lia | lia |].
    set (y := to_float64 (inject_Z (Z.of_nat i)
                          * to_float64 (inject_Z span / inject_Z (n - 1)))) in *.
    pose proof (Qfloor_le y) as Hf1. pose proof (Qlt_floor y) as Hf2.
    rewrite inject_Z_plus in Hf2. change (inject_Z 1) with 1%Q in Hf2.
    split; lra.
Qed.

(** The points never decrease. *)
Lemma linspace_point_mono (span n : Z) (i j : nat) :
  2 <= n <= 2 ^ 52 -> 0 <= span < 2 ^ 52 -> (i <= j < Z.to_nat n)%nat ->
  linspace_point span n i <= linspace_point span n j.
Proof.
  intros Hn Hs Hij.
  destruct (step_bounds span (n - 1)) as (Hst0 & _); [lia | lia |].
  destruct (Z.eq_dec (Z.of_nat j) (n - 1)) as [Hlast | Hin].
  - replace j with (Z.to_nat n - 1)%nat by lia.
    rewrite linspace_point_last by (change (2 ^ 53) with 9007199254740992;
                                    change (2 ^ 52) with 4503599627370496 in *; lia).
    destruct (Z.eq_dec (Z.of_nat i) (n - 1)) as [Hi | Hi].
    + replace i with (Z.to_nat n - 1)%nat by lia.
      rewrite linspace_point_last by (change (2 ^ 53) with 9007199254740992;
                                      change (2 ^ 52) with 4503599627370496 in *; lia).
      lia.
    + rewrite linspace_point_inner by lia.
      destruct (point_value_bounds span (n - 1) (Z.of_nat i)) as (_ & _ & _ & Hle);
        [lia | lia | lia |].
      specialize (Hle ltac:(lia)).
      rewrite <- (Qfloor_Z span) at 2. apply Qfloor_resp_le. exact Hle.
  - rewrite !linspace_point_inner by lia.
    apply Qfloor_resp_le, to_float64_mono.
    + destruct (inject_Z_bounds (Z.of_nat i) 0 (Z.of_nat i) ltac:(lia)) as [Hi0 _].
      change (inject_Z 0) with 0%Q in Hi0. nra.
    + destruct (inject_Z_bounds (Z.of_nat i) 0 (Z.of_nat j) ltac:(lia)) as [_ Hle].
      nra.
Qed.

(** When [n - 1] divides the span every point is exact. *)
Lemma linspace_point_exact (span n : Z) (i : nat) :
  2 <= n <= 2 ^ 52 -> 0 <= span < 2 ^ 52 -> (n - 1 | span) ->
  (i < Z.to_nat n)%nat ->
  linspace_point span n i = Z.of_nat i * (span / (n - 1)).
Proof.
  intros Hn Hs [q Hq] Hi.
  assert (Hdiv : span / (n - 1) = q) by (subst span; apply Z.div_mul; lia).
  rewrite Hdiv.
  assert (Hq0 : 0 <= q) by nia.
  destruct (Z.eq_dec (Z.of_nat i) (n - 1)) as [Hlast | Hin].
  - replace i with (Z.to_nat n - 1)%nat at 1 by lia.
    rewrite linspace_point_last by (change (2 ^ 53) with 9007199254740992;
                                    change (2 ^ 52) with 4503599627370496 in *; lia).
    rewrite Hlast. lia.
  - rewrite linspace_point_inner by lia.
    change (2 ^ 52) with 4503599627370496 in *.
    assert (Hm : (1 <= inject_Z (n - 1))%Q).
    { change 1%Q with (inject_Z 1). rewrite <- Zle_Qle. lia. }
    assert (Hs' : (inject_Z span / inject_Z (n - 1) == inject_Z q)%Q).
    { subst span. rewrite inject_Z_mult. field. lra. }
    assert (Hst : (to_float64 (inject_Z span / inject_Z (n - 1)) == inject_Z q)%Q).
    { rewrite (to_float64_comp _ _ Hs'). apply to_float64_exact_Z.
      change (2 ^ 53) with 9007199254740992. nia. }
    assert (Hy : (to_float64 (inject_Z (Z.of_nat i)
                              * to_float64 (inject_Z span / inject_Z (n - 1)))
                  == inject_Z (Z.of_nat i * q))%Q).
    { rewrite (to_float64_comp _ (inject_Z (Z.of_nat i * q))).
      - apply to_float64_exact_Z. change (2 ^ 53) with 9007199254740992. nia.
      - rewrite Hst, inject_Z_mult. reflexivity. }
    rewrite (Qfloor_comp _ _ Hy). apply Qfloor_Z.
Qed.

Lemma dates_inv (clk : clock) (n : Z) (ts : list Z) :
  0 <= n -> dates clk n = Ok ts ->
  ts = map (fun i => window_start clk + linspace_point (window_span clk) n i)
           (seq 0 (Z.to_nat n)).
Proof.
  intros Hn Hd. unfold dates, date_range_float64, linspace_float64 in Hd.
  destruct (Z.ltb_spec n 0) as [Hneg | _]; [lia |].
  injection Hd as <-. rewrite map_map. apply map_ext. intros i.
  unfold window_span. lia.
Qed.

Lemma dates_nth (clk : clock) (n : Z) (ts : list Z) (i : nat) :
  0 <= n -> dates clk n = Ok ts -> (i < Z.to_nat n)%nat ->
  nth i ts 0 = window_start clk + linspace_point (window_span clk) n i.
Proof.
  intros Hn Hd Hi. rewrite (dates_inv clk n ts Hn Hd).
  now rewrite nth_map_seq.
Qed.

(** C10, as stated, fails: the window closes at a second reading of the
    clock, so its length is 30 days plus the time between the two
    readings; with two records and readings one microsecond apart the
    single step is not 30 days. *)
Lemma step_is_not_30_days :
  exists ts,
    dates (mkClock 0 1000) 2 = Ok ts
    /\ ~ constant_step_30_days 2 ts.
Proof.
  eexists. split; [vm_compute; reflexivity |].
  intros Hstep. specialize (Hstep 0%nat ltac:(cbn; lia)).
  vm_compute in Hstep. discriminate Hstep.
Qed.

(** With both readings equal the step is still not constant when
    [n - 1] does not divide 30 days in nanoseconds (here [n = 8]). *)
Lemma step_is_not_constant_for_8 :
  exists ts,
    dates (mkClock 0 0) 8 = Ok ts
    /\ ~ constant_step_30_days 8 ts.
Proof.
  eexists. split; [vm_compute; reflexivity |].
  intros Hstep. specialize (Hstep 0%nat ltac:(cbn; lia)).
  vm_compute in Hstep. discriminate Hstep.
Qed.

(** C10 (amended): the timestamps of a run of [n >= 2] records, as
    numpy computes them in doubles, for a window that closes no earlier
    than it opens (sizes and window lengths below [2^52]).  The window
    length [span] is 30 days plus the time between the two clock readings.
    The first timestamp is the window start and the last is the second
    reading; timestamp [i] is less than 5/2 ns away from the window start
    plus [i * span / (n - 1)]; the timestamps never decrease, and they
    strictly increase (so no two records share one) if
    [4 * (n - 1) <= span]; if [n - 1] divides [span], timestamp [i] is
    exactly the window start plus [i * (span / (n - 1))]; if moreover the
    two readings coincide, every step is exactly 30 days over [n - 1]. *)
Theorem timestamps_spacing (clk : clock) (n : Z) (ts : list Z) :
  2 <= n <= 2 ^ 52 -> 0 <= window_span clk < 2 ^ 52 ->
  dates clk n = Ok ts ->
  List.length ts = Z.to_nat n
  /\ nth 0 ts 0 = now_start clk - timedelta_days 30
  /\ nth (Z.to_nat n - 1) ts 0 = now_end clk
  /\ window_span clk = timedelta_days 30 + (now_end clk - now_start clk)
  /\ (forall i, (i < Z.to_nat n)%nat ->
        (Qabs (inject_Z (nth i ts 0%Z - window_start clk)%Z
               - even_offset clk n i) < 5 # 2)%Q)
  /\ (forall i j, (i <= j < Z.to_nat n)%nat -> nth i ts 0 <= nth j ts 0)
  /\ (4 * (n - 1) <= window_span clk ->
      forall i j, (i < j < Z.to_nat n)%nat -> nth i ts 0 < nth j ts 0)
  /\ ((n - 1 | window_span clk) ->
      forall i, (i < Z.to_nat n)%nat ->
        nth i ts 0 = window_start clk + Z.of_nat i * (window_span clk / (n - 1)))
  /\ (now_end clk = now_start clk -> (n - 1 | timedelta_days 30) ->
      constant_step_30_days n ts).
Proof.
  intros Hn Hspan Hd.
  pose proof (fun i => dates_nth clk n ts i ltac:(lia) Hd) as Hnth.
  split.
  { rewrite (dates_inv clk n ts ltac:(lia) Hd). now rewrite length_map, length_seq. }
  split.
  { rewrite Hnth by lia. rewrite linspace_point_first by assumption.
    unfold window_start. lia. }
  split.
  { rewrite Hnth by lia.
    rewrite linspace_point_last
      by (change (2 ^ 53) with 9007199254740992;
          change (2 ^ 52) with 4503599627370496 in *; lia).
    unfold window_span. lia. }
  split; [unfold window_span, window_start; lia |].
  split.
  { intros i Hi. rewrite Hnth by exact Hi.
    replace (window_start clk + linspace_point (window_span clk) n i - window_start clk)
      with (linspace_point (window_span clk) n i) by lia.
    destruct (linspace_point_near (window_span clk) n i Hn Hspan Hi) as [Hlo Hhi].
    unfold even_offset. apply Qabs_case; intros _; lra. }
  split.
  { intros i j Hij. rewrite !Hnth by lia.
    pose proof (linspace_point_mono (window_span clk) n i j Hn Hspan Hij). lia. }
  split.
  { intros Hbig i j Hij. rewrite !Hnth by lia.
    destruct (linspace_point_near (window_span clk) n i Hn Hspan ltac:(lia))
      as [_ Hi_hi].
    destruct (linspace_point_near (window_span clk) n j Hn Hspan ltac:(lia))
      as [Hj_lo _].
    assert (Hm : (1 <= inject_Z (n - 1))%Q).
    { change 1%Q with (inject_Z 1). rewrite <- Zle_Qle. lia. }
    assert (Hs4 : (4 * inject_Z (n - 1) <= inject_Z (window_span clk))%Q).
    { change 4%Q with (inject_Z 4). rewrite <- inject_Z_mult, <- Zle_Qle. lia. }
    destruct (inject_Z_bounds (Z.of_nat i + 1) (Z.of_nat i + 1) (Z.of_nat j)
                ltac:(lia)) as [_ Hij'].
    rewrite inject_Z_plus in Hij'. change (inject_Z 1) with 1%Q in Hij'.
    set (S := inject_Z (window_span clk)) in *. set (M := inject_Z (n - 1)) in *.
    set (I := inject_Z (Z.of_nat i)) in *. set (J := inject_Z (Z.of_nat j)) in *.
    assert (Hs : (4 <= S / M)%Q) by (apply Qle_shift_div_l; lra).
    assert (HI : (I * S / M == I * (S / M))%Q) by (field; lra).
    assert (HJ : (J * S / M == J * (S / M))%Q) by (field; lra).
    rewrite HI in Hi_hi. rewrite HJ in Hj_lo.
    assert (Hgap : (I * (S / M) + 4 <= J * (S / M))%Q) by nra.
    assert (Hlt : (inject_Z (linspace_point (window_span clk) n i)
                   < inject_Z (linspace_point (window_span clk) n j))%Q) by lra.
    rewrite <- Zlt_Qlt in Hlt. lia. }
  split.
  { intros Hdiv i Hi. rewrite Hnth by exact Hi.
    now rewrite linspace_point_exact. }
  intros Hsame Hdiv i Hi.
  assert (Hs : window_span clk = timedelta_days 30).
  { unfold window_span, window_start. lia. }
  rewrite !Hnth by lia.
  rewrite !linspace_point_exact by (try assumption; try lia; rewrite Hs; exact Hdiv).
  rewrite Hs. destruct Hdiv as [q Hq]. rewrite Hq.
  rewrite Z.div_mul by lia. nia.
Qed.

Lemma timestamps_spacing_witness :
  2 <= 12 <= 2 ^ 52 /\ 0 <= window_span sample_clock < 2 ^ 52
  /\ dates sample_clock 12 = Ok (map date sample_ledger)
  /\ nth 0 (map date sample_ledger) 0 < nth 1 (map date sample_ledger) 0.
Proof.
  assert (H2 : 2 <= 12 <= 2 ^ 52) by (split; [lia | vm_compute; discriminate]).
  assert (Hspan : 0 <= window_span sample_clock < 2 ^ 52)
    by (split; [vm_compute; discriminate | vm_compute; reflexivity]).
  assert (Hbig : 4 * (12 - 1) <= window_span sample_clock)
    by (vm_compute; discriminate).
  assert (Hd : dates sample_clock 12 = Ok (map date sample_ledger))
    by (vm_compute; reflexivity).
  pose proof (timestamps_spacing sample_clock 12 (map date sample_ledger)
                H2 Hspan Hd) as (_ & _ & _ & _ & _ & _ & Hstrict & _).
  split; [exact H2 |]. split; [exact Hspan |]. split; [exact Hd |].
  apply (Hstrict Hbig 0%nat 1%nat). cbn. lia.
Defined.

(** The ledger is built on the grid without rounding error; its
    timestamps are those of [dates] at both ends and within 3 ns of them
    in between. *)
Lemma ledger_dates_near_float64_grid {G : Type} `{RandomState G}
      (clk : clock) (n : Z) (df : DataFrame) (ts : list Z) (i : nat) :
  2 <= n <= 2 ^ 52 -> 0 <= window_span clk < 2 ^ 52 ->
  generate_fraud_data clk n = Ok df -> dates clk n = Ok ts ->
  (i < Z.to_nat n)%nat ->
  Z.abs (nth i (map date df) 0 - nth i ts 0) <= 3
  /\ nth 0 (map date df) 0 = nth 0 ts 0
  /\ nth (Z.to_nat n - 1) (map date df) 0 = nth (Z.to_nat n - 1) ts 0.
Proof.
  intros Hn Hspan Hg Hd Hi.
  pose proof (fun i => dates_nth clk n ts i ltac:(lia) Hd) as Hnth.
  pose proof (fun i => generated_date_nth clk n df i ltac:(lia) Hg) as Hgen.
  split; [| split].
  - rewrite Hnth, Hgen by exact Hi.
    destruct (linspace_point_near (window_span clk) n i Hn Hspan Hi) as [Hlo Hhi].
    assert (Hm : 0 < n - 1) by lia.
    assert (HmQ : (1 <= inject_Z (n - 1))%Q).
    { change 1%Q with (inject_Z 1). rewrite <- Zle_Qle. lia. }
    set (a := Z.of_nat i * window_span clk) in *.
    pose proof (Z.div_mod a (n - 1) ltac:(lia)) as Hdm.
    pose proof (Z.mod_pos_bound a (n - 1) Hm) as Hr.
    assert (Hideal : (inject_Z (Z.of_nat i) * inject_Z (window_span clk)
                      / inject_Z (n - 1)
                      == inject_Z (a / (n - 1))
                         + inject_Z (a mod (n - 1)) / inject_Z (n - 1))%Q).
    { rewrite <- inject_Z_mult. fold a. rewrite Hdm at 1.
      rewrite inject_Z_plus, inject_Z_mult. field. lra. }
    destruct (inject_Z_bounds (a mod (n - 1)) 0 (n - 1) ltac:(lia)) as [Hr0 Hr1].
    change (inject_Z 0) with 0%Q in Hr0.
    assert (Hfrac : (0 <= inject_Z (a mod (n - 1)) / inject_Z (n - 1)
                     /\ inject_Z (a mod (n - 1)) / inject_Z (n - 1) <= 1)%Q).
    { split; [apply Qle_shift_div_l; lra | apply Qle_shift_div_r; lra]. }
    rewrite Hideal in Hlo, Hhi.
    set (b := a / (n - 1)) in *.
    set (p := linspace_point (window_span clk) n i) in *.
    assert (H1 : (inject_Z (p + - b) < inject_Z 3)%Q).
    { rewrite inject_Z_plus, inject_Z_opp. change (inject_Z 3) with 3%Q. lra. }
    assert (H2 : (inject_Z (-3) < inject_Z (p + - b))%Q).
    { rewrite inject_Z_plus, inject_Z_opp. change (inject_Z (-3)) with (-3)%Q. lra. }
    rewrite <- Zlt_Qlt in H1, H2. lia.
  - rewrite Hnth, Hgen by lia.
    rewrite linspace_point_first by assumption.
    cbn [Z.of_nat]. rewrite Z.mul_0_l, Z.div_0_l by lia. reflexivity.
  - rewrite Hnth, Hgen by lia.
    rewrite linspace_point_last
      by (change (2 ^ 53) with 9007199254740992;
          change (2 ^ 52) with 4503599627370496 in *; lia).
    replace (Z.of_nat (Z.to_nat n - 1)) with (n - 1) by lia.
    rewrite Z.mul_comm, Z.div_mul by lia. reflexivity.
Qed.

(** * Further properties of the program *)

(** ** Sizes and identifiers *)

(** X1: The synthesiser fails exactly on a negative size; for any other size
    it returns a ledger of that many rows. *)
Theorem rejected_iff_negative {G : Type} `{RandomState G} (clk : clock) (n : Z) :
  is_rejected (generate_fraud_data clk n) = (n <? 0)
  /\ (0 <= n -> exists df, generate_fraud_data clk n = Ok df
                           /\ Z.of_nat (List.length df) = n).
Proof.
  unfold generate_fraud_data, date_range, linspace.
  destruct (Z.ltb_spec n 0) as [Hneg | Hpos]; cbn [is_rejected].
  - split; [reflexivity | lia].
  - split; [reflexivity |]. intros _. eexists. split; [reflexivity |].
    rewrite length_map, length_seq. lia.
Qed.

Lemma read_decimal_zero (s : string) :
  read_decimal (String "0" s) = read_decimal s.
Proof.
  unfold read_decimal. cbn [NilEmpty.uint_of_string].
  destruct (NilEmpty.uint_of_string s) as [d |]; reflexivity.
Qed.

Lemma read_decimal_zeros (k : nat) (s : string) :
  read_decimal (zeros k ++ s) = read_decimal s.
Proof.
  induction k as [| k IH]; cbn [zeros String.append]; [reflexivity |].
  now rewrite read_decimal_zero.
Qed.

Lemma read_decimal_decimal (n : nat) : read_decimal (decimal n) = Some n.
Proof.
  unfold read_decimal, decimal.
  pose proof (DecimalNat.Unsigned.of_to n) as Hn.
  destruct (Nat.to_uint n) as [| d | d | d | d | d | d | d | d | d | d] eqn:E;
    cbn [NilZero.string_of_uint].
  1: { cbn in Hn. subst n. reflexivity. }
  all: rewrite NilEmpty.usu; cbn [option_map]; now rewrite Hn.
Qed.

(** A transaction id can be read back: the format loses nothing. *)
Lemma read_format_transaction_id (i : nat) :
  read_transaction_id (format_transaction_id i) = Some i.
Proof.
  unfold format_transaction_id, zero_padded. cbn [String.append read_transaction_id].
  now rewrite read_decimal_zeros, read_decimal_decimal.
Qed.

Lemma format_transaction_id_inj (i j : nat) :
  format_transaction_id i = format_transaction_id j -> i = j.
Proof.
  intros Heq.
  assert (Hr : read_transaction_id (format_transaction_id i)
               = read_transaction_id (format_transaction_id j)) by now rewrite Heq.
  rewrite !read_format_transaction_id in Hr. congruence.
Qed.

Lemma NoDup_map_injective {A B} (f : A -> B) (l : list A) :
  (forall x y, f x = f y -> x = y) -> NoDup l -> NoDup (map f l).
Proof.
  intros Hinj. induction 1 as [| x l Hnin Hnd IH]; cbn [map]; constructor.
  - intros Hin. apply in_map_iff in Hin as (y & Hy & Hin).
    apply Hinj in Hy. now subst y.
  - exact IH.
Qed.

(** X2: Transaction ids: row [i] carries the id of ordinal [i], the ordinal can
    be read back from the id, and no two rows of a ledger share an id. *)
Theorem transaction_ids_unique {G : Type} `{RandomState G}
        (clk : clock) (n : Z) (df : DataFrame) :
  generate_fraud_data clk n = Ok df ->
  map transaction_id df = map format_transaction_id (seq 0 (Z.to_nat n))
  /\ (forall i r, nth_error df i = Some r ->
        read_transaction_id (transaction_id r) = Some i)
  /\ NoDup (map transaction_id df).
Proof.
  intros Hg.
  assert (Hids : map transaction_id df
                 = map format_transaction_id (seq 0 (Z.to_nat n))).
  { apply generate_fraud_data_inv in Hg as (_ & dates & _ & ->).
    rewrite map_map. reflexivity. }
  split; [exact Hids |]. split.
  - intros i r Hr.
    destruct (generate_fraud_data_nth clk n df i r Hg Hr) as (dates & ->).
    apply read_format_transaction_id.
  - rewrite Hids. apply NoDup_map_injective.
    + exact format_transaction_id_inj.
    + apply seq_NoDup.
Qed.

Lemma transaction_ids_unique_witness :
  NoDup (map transaction_id sample_ledger).
Proof.
  exact (proj2 (proj2 (transaction_ids_unique (G := Z) sample_clock 12
                         sample_ledger eq_refl))).
Defined.

Lemma decimal_four_digits (k : Z) :
  1000 <= k < 10000 -> String.length (decimal (Z.to_nat k)) = 4%nat.
Proof.
  intros Hk.
  assert (Hall : forallb (fun i => Nat.eqb (String.length
                                   (decimal (Z.to_nat (1000 + Z.of_nat i)))) 4)
                         (seq 0 (Z.to_nat 9000)) = true) by (vm_compute; reflexivity).
  rewrite forallb_forall in Hall.
  specialize (Hall (Z.to_nat (k - 1000))).
  replace (1000 + Z.of_nat (Z.to_nat (k - 1000))) with k in Hall by lia.
  apply Nat.eqb_eq, Hall, in_seq. lia.
Qed.

(** X3: User ids: under the generator's range guarantee every user id is
    [USER] followed by the four digits of an integer from 1000 to 9998;
    9999 never occurs. *)
Theorem user_id_shape {G : Type} `{RandomStateOk G}
        (clk : clock) (n : Z) (df : DataFrame) (r : Transaction) :
  generate_fraud_data clk n = Ok df -> In r df ->
  (exists k, 1000 <= k <= 9998 /\ user_id r = format_user_id k)
  /\ String.length (user_id r) = 8%nat.
Proof.
  intros Hg Hr.
  destruct (generate_fraud_data_In clk n df r Hg Hr) as (dates & i & Hi & ->).
  destruct (columns_unfold (Z.to_nat n)) as (g1 & g2 & g3 & g4 & g5 & g6 & Hc).
  cbn [row_at user_id].
  assert (Hk : 1000 <= nth i (raw_user (columns (Z.to_nat n))) 0 < 9999).
  { rewrite Hc. cbn [raw_user].
    apply (proj1 (Forall_nth (fun x => 1000 <= x < 9999) _));
      [| now rewrite replicateM_length].
    apply replicateM_Forall. intros g. unfold np_random_randint.
    apply randint_range. lia. }
  set (k := nth i (raw_user (columns (Z.to_nat n))) 0) in *.
  split; [exists k; split; [lia | reflexivity] |].
  unfold format_user_id, format_int.
  destruct (Z.ltb_spec k 0) as [Hneg | _]; [lia |].
  cbn [String.append String.length].
  rewrite decimal_four_digits by lia. reflexivity.
Qed.

Lemma user_id_shape_witness :
  In (nth 3 sample_ledger blank) sample_ledger
  /\ String.length (user_id (nth 3 sample_ledger blank)) = 8%nat.
Proof.
  assert (Hin : In (nth 3 sample_ledger blank) sample_ledger).
  { apply nth_In. vm_compute. lia. }
  split; [exact Hin |].
  exact (proj2 (user_id_shape sample_clock 12 sample_ledger
                  (nth 3 sample_ledger blank) eq_refl Hin)).
Defined.

(** ** Rounding *)


(** ** Timestamps and the window *)

Lemma date_range_nth_bounds (s e n : Z) (dates : list Z) (i : nat) :
  1 <= n -> s <= e -> date_range s e n = Ok dates -> (i < Z.to_nat n)%nat ->
  s <= nth i dates 0 <= e.
Proof.
  intros Hn Hse Hd Hi. unfold date_range, linspace in Hd.
  destruct (Z.ltb_spec n 0) as [Hneg | _]; [lia |].
  injection Hd as <-. rewrite map_map, nth_map_seq by exact Hi.
  destruct (Z.eqb_spec n 1) as [H1 | Hne]; [lia |].
  assert (Hm : 0 < n - 1) by lia.
  assert (H0 : 0 <= Z.of_nat i * (e - s) / (n - 1)).
  { apply Z.div_pos; [nia | exact Hm]. }
  assert (H1 : Z.of_nat i * (e - s) / (n - 1) <= e - s).
  { apply Z.div_le_upper_bound; [exact Hm | nia]. }
  lia.
Qed.

Lemma generated_date_bounds {G : Type} `{RandomState G}
      (clk : clock) (n : Z) (df : DataFrame) (r : Transaction) :
  0 <= window_span clk -> generate_fraud_data clk n = Ok df -> In r df ->
  window_start clk <= date r <= now_end clk.
Proof.
  intros Hspan Hg Hr.
  apply generate_fraud_data_inv in Hg as (Hn & dates & Hd & ->).
  apply in_map_iff in Hr as (i & <- & Hi). apply in_seq in Hi.
  cbn [row_at date].
  apply (date_range_nth_bounds _ _ n); try assumption; try lia.
  unfold window_span in Hspan. unfold window_start in *. lia.
Qed.

(** X6: Every timestamp of a generated ledger lies in the window, from 30 days
    before the first clock reading to the second reading; a ledger of one
    row carries the opening of the window, not the time of generation. *)
Theorem timestamps_in_window {G : Type} `{RandomState G}
        (clk : clock) (n : Z) (df : DataFrame) :
  0 <= window_span clk ->
  generate_fraud_data clk n = Ok df ->
  (forall r, In r df -> window_start clk <= date r <= now_end clk)
  /\ (n = 1 -> map date df = [now_start clk - timedelta_days 30]).
Proof.
  intros Hspan Hg.
  split; [intros r Hr; now apply (generated_date_bounds clk n df) |].
  apply generate_fraud_data_inv in Hg as (Hn & dates & Hd & ->).
  intros ->. unfold date_range, linspace in Hd.
  change (Z.to_nat 1) with 1%nat in *. cbn in Hd.
  injection Hd as <-. reflexivity.
Qed.

Lemma timestamps_in_window_witness :
  0 <= window_span sample_clock
  /\ In (nth 5 sample_ledger blank) sample_ledger
  /\ window_start sample_clock <= date (nth 5 sample_ledger blank)
     <= now_end sample_clock.
Proof.
  assert (Hspan : 0 <= window_span sample_clock) by (vm_compute; discriminate).
  assert (Hin : In (nth 5 sample_ledger blank) sample_ledger).
  { apply nth_In. vm_compute. lia. }
  split; [exact Hspan |]. split; [exact Hin |].
  exact (proj1 (timestamps_in_window (G := Z) sample_clock 12 sample_ledger
                  Hspan eq_refl) _ Hin).
Defined.

(** ** Ranking *)

Section GeneratedRanges.
Context {G : Type} `{RandomStateOk G}.

(** The amount and the score band of a generated row. *)
Lemma generated_row_ranges (clk : clock) (n : Z) (df : DataFrame) (r : Transaction) :
  generate_fraud_data clk n = Ok df -> In r df ->
  (0 <= amount r)%Q
  /\ (is_fraud r = true -> (7 # 10 <= risk_score r)%Q)
  /\ (is_fraud r = false -> (risk_score r <= 6 # 10)%Q).
Proof.
  intros Hg Hr.
  destruct (generate_fraud_data_In clk n df r Hg Hr) as (dates & i & Hi & ->).
  destruct (columns_unfold (Z.to_nat n)) as (g1 & g2 & g3 & g4 & g5 & g6 & Hc).
  set (k := Z.to_nat n) in *.
  unfold row_at. cbn [amount risk_score is_fraud].
  set (f := fraud_conditions _ _ _ && _).
  split; [| split].
  - assert (Ha : (0 <= nth i (raw_amount (columns k)) 0)%Q).
    { rewrite Hc. cbn [raw_amount]. unfold np_random_lognormal.
      apply Forall_nth; [| now rewrite replicateM_length].
      apply replicateM_Forall. intros g. apply lognormal_nonneg. }
    pose proof (np_round_ge 2 0 (nth i (raw_amount (columns k)) 0%Q)) as Hr2.
    change (inject_Z (Zpos (pow10 2))) with (100 # 1)%Q in Hr2.
    change (inject_Z 0) with (0 # 1)%Q in Hr2.
    change (pow10 2) with 100%positive in Hr2.
    specialize (Hr2 ltac:(lra)). lra.
  - intros Hf. rewrite Hf.
    assert (Hhi : (7 # 10 <= nth i (raw_high (columns k)) 0)%Q).
    { rewrite Hc. cbn [raw_high]. unfold np_random_uniform.
      apply (proj1 (Forall_nth (fun x => (7 # 10 <= x)%Q) _));
        [| now rewrite replicateM_length].
      apply replicateM_Forall. intros g. apply uniform1_range. lra. }
    pose proof (np_round_ge 3 700 (nth i (raw_high (columns k)) 0%Q)) as Hr3.
    change (inject_Z (Zpos (pow10 3))) with (1000 # 1)%Q in Hr3.
    change (inject_Z 700) with (700 # 1)%Q in Hr3.
    change (pow10 3) with 1000%positive in Hr3.
    specialize (Hr3 ltac:(lra)). lra.
  - intros Hf. rewrite Hf.
    assert (Hlo : (nth i (raw_low (columns k)) 0 <= 6 # 10)%Q).
    { rewrite Hc. cbn [raw_low]. unfold np_random_uniform.
      apply (proj1 (Forall_nth (fun x => (x <= 6 # 10)%Q) _));
        [| now rewrite replicateM_length].
      apply replicateM_Forall. intros g. apply uniform1_range. lra. }
    pose proof (np_round_le 3 600 (nth i (raw_low (columns k)) 0%Q)) as Hr3.
    change (inject_Z (Zpos (pow10 3))) with (1000 # 1)%Q in Hr3.
    change (inject_Z 600) with (600 # 1)%Q in Hr3.
    change (pow10 3) with 1000%positive in Hr3.
    specialize (Hr3 ltac:(lra)). lra.
Qed.
End GeneratedRanges.

Lemma nlargest_split (k : nat) (df : DataFrame) :
  StronglySorted ranked_before (nlargest k df)
  /\ (forall x, In x (nlargest k df) -> In x (with_index df))
  /\ (forall y, In y (with_index df) ->
         In y (nlargest k df)
         \/ (forall x, In x (nlargest k df) -> ranked_before x y)).
Proof.
  pose proof (sort_desc_Permutation (with_index df)) as Hperm.
  assert (Hsorted : StronglySorted ranked_before (sort_desc (with_index df))).
  { apply sort_desc_sorted. rewrite with_index_fst. apply seq_sorted. }
  rewrite <- (firstn_skipn k (sort_desc (with_index df))) in Hsorted.
  apply StronglySorted_app_inv in Hsorted as [Htop Hcross].
  unfold nlargest. split; [exact Htop |]. split.
  - intros x Hx. apply (Permutation_in _ Hperm).
    rewrite <- (firstn_skipn k (sort_desc (with_index df))).
    apply in_or_app. now left.
  - intros y Hy.
    apply (Permutation_in _ (Permutation_sym Hperm)) in Hy.
    rewrite <- (firstn_skipn k (sort_desc (with_index df))) in Hy.
    apply in_app_or in Hy as [Hy | Hy]; [now left | right].
    intros x Hx. now apply Hcross.
Qed.

Lemma StronglySorted_weaken {A} (R R' : A -> A -> Prop) (l : list A) :
  (forall x y, In x l -> In y l -> R x y -> R' x y) ->
  StronglySorted R l -> StronglySorted R' l.
Proof.
  intros Himp Hs. induction Hs as [| a l Hs IH Hall]; constructor.
  - apply IH. intros x y Hx Hy. apply Himp; now right.
  - rewrite Forall_forall in *. intros y Hy.
    apply Himp; [now left | now right | now apply Hall].
Qed.

Lemma with_index_In_df (df : DataFrame) (x : Indexed) :
  In x (with_index df) -> In (snd x) df.
Proof.
  intros Hx. apply with_index_nth_error in Hx. eapply nth_error_In; eauto.
Qed.

(** X7: In the ranking of a generated ledger the fraudulent rows come first:
    no fraudulent row is listed after a legitimate one, and as soon as a
    legitimate row is listed, every fraudulent row of the ledger is
    listed too.  This holds for any number [k] of rows kept. *)
Theorem fraud_ranked_first {G : Type} `{RandomStateOk G}
        (clk : clock) (n : Z) (df : DataFrame) (k : nat) :
  generate_fraud_data clk n = Ok df ->
  StronglySorted legit_stays_legit (nlargest k df)
  /\ (forall x y, In x (nlargest k df) -> is_fraud (snd x) = false ->
                  In y (with_index df) -> is_fraud (snd y) = true ->
                  In y (nlargest k df)).
Proof.
  intros Hg.
  destruct (nlargest_split k df) as (Hsorted & Hsub & Hcross).
  assert (Hband : forall x y, In x (with_index df) -> In y (with_index df) ->
                              ranked_before x y ->
                              is_fraud (snd x) = false -> is_fraud (snd y) = false).
  { intros x y Hx Hy Hxy Hfx.
    destruct (is_fraud (snd y)) eqn:Hfy; [exfalso | reflexivity].
    apply ranked_before_score in Hxy. unfold score in Hxy.
    pose proof (generated_row_ranges clk n df (snd x) Hg (with_index_In_df _ _ Hx))
      as (_ & _ & Hlo).
    pose proof (generated_row_ranges clk n df (snd y) Hg (with_index_In_df _ _ Hy))
      as (_ & Hhi & _).
    specialize (Hlo Hfx). specialize (Hhi Hfy). lra. }
  split.
  - apply (StronglySorted_weaken ranked_before); [| exact Hsorted].
    intros x y Hx Hy Hxy. unfold legit_stays_legit.
    apply Hband; auto.
  - intros x y Hx Hfx Hy Hfy.
    destruct (Hcross y Hy) as [Hin | Hafter]; [exact Hin |].
    pose proof (Hband x y (Hsub x Hx) Hy (Hafter x Hx) Hfx) as Hc.
    congruence.
Qed.

Lemma fraud_ranked_first_witness :
  StronglySorted legit_stays_legit (nlargest 10 sample_ledger).
Proof.
  exact (proj1 (fraud_ranked_first (G := Z) sample_clock 12 sample_ledger 10
                  eq_refl)).
Defined.

Lemma map_snd_combine_seq (df : DataFrame) (s : nat) :
  map snd (combine (seq s (List.length df)) df) = df.
Proof.
  revert s. induction df as [| r df IH]; intros s; cbn [List.length seq combine map snd];
    [reflexivity |].
  now rewrite IH.
Qed.

(** X8: [nlargest] for any number [k] of rows: it keeps min(k, N) rows of the
    ledger, never the same row twice, and when the ledger has at most [k]
    rows it keeps every row. *)
Theorem nlargest_rows (k : nat) (df : DataFrame) :
  List.length (nlargest k df) = Nat.min k (List.length df)
  /\ NoDup (map fst (nlargest k df))
  /\ (forall x, In x (nlargest k df) -> nth_error df (fst x) = Some (snd x))
  /\ ((List.length df <= k)%nat -> Permutation (map snd (nlargest k df)) df).
Proof.
  pose proof (sort_desc_Permutation (with_index df)) as Hperm.
  assert (Hlen : List.length (sort_desc (with_index df)) = List.length df).
  { rewrite (Permutation_length Hperm). apply with_index_length. }
  unfold nlargest. split; [| split; [| split]].
  - now rewrite length_firstn, Hlen.
  - assert (Hnd : NoDup (map fst (sort_desc (with_index df)))).
    { apply (Permutation_NoDup (l := seq 0 (List.length df))); [| apply seq_NoDup].
      rewrite <- with_index_fst. apply Permutation_map. now symmetry. }
    rewrite <- (firstn_skipn k (sort_desc (with_index df))), map_app in Hnd.
    now apply NoDup_app_remove_r in Hnd.
  - intros x Hx. apply with_index_nth_error, (Permutation_in _ Hperm).
    rewrite <- (firstn_skipn k (sort_desc (with_index df))).
    apply in_or_app. now left.
  - intros Hk. rewrite firstn_all2 by lia.
    rewrite (Permutation_map snd Hperm). unfold with_index.
    now rewrite map_snd_combine_seq.
Qed.

(** ** Scalar metrics *)

Lemma percentage_bounds (c t : Z) :
  0 <= c <= t -> 0 < t ->
  (0 <= inject_Z c / inject_Z t * 100 /\ inject_Z c / inject_Z t * 100 <= 100)%Q.
Proof.
  intros Hc Ht.
  assert (Htq : (0 < inject_Z t)%Q) by (unfold Qlt; cbn; lia).
  assert (Hcq : (0 <= inject_Z c)%Q) by (unfold Qle; cbn; lia).
  assert (Hct : (inject_Z c <= inject_Z t)%Q) by (rewrite <- Zle_Qle; lia).
  assert (H0 : (0 <= inject_Z c / inject_Z t)%Q).
  { apply Qle_shift_div_l; [exact Htq | lra]. }
  assert (H1 : (inject_Z c / inject_Z t <= 1)%Q).
  { apply Qle_shift_div_r; [exact Htq | lra]. }
  split; lra.
Qed.

(** X9: The fraud rate is never infinite: it is NaN exactly for the empty
    ledger and otherwise a percentage between 0 and 100; the mean amount
    is NaN exactly for the empty ledger. *)
Theorem fraud_rate_shape (df : DataFrame) :
  match fraud_rate df with
  | NaN => df = []
  | Inf _ => False
  | Finite q => df <> [] /\ (0 <= q /\ q <= 100)%Q
  end
  /\ (mean_amount df = NaN <-> df = []).
Proof.
  split.
  - unfold fraud_rate, np_true_divide, fraud_transactions, total_transactions.
    rewrite bool_sum_count.
    pose proof (count_where_le_length is_fraud df) as Hc.
    destruct df as [| r df]; [reflexivity |].
    destruct (Z.eqb_spec (Z.of_nat (List.length (r :: df))) 0) as [H0 | Hne].
    + cbn [List.length] in H0. lia.
    + cbn [float64_mul]. split; [discriminate |].
      apply percentage_bounds; [exact Hc | cbn [List.length]; lia].
  - unfold mean_amount, Series_mean. destruct df as [| r df]; cbn [map].
    + split; reflexivity.
    + split; intros Habs; discriminate Habs.
Qed.

Lemma Qsum_where_split (p : Transaction -> bool) (f : Transaction -> Q)
      (df : DataFrame) :
  (Qsum (map f df) == Qsum_where p f df + Qsum_where (fun r => negb (p r)) f df)%Q.
Proof.
  induction df as [| r df IH]; cbn [map Qsum Qsum_where]; [ring |].
  rewrite IH. destruct (p r); cbn [negb]; ring.
Qed.

Lemma Qsum_where_nonneg (p : Transaction -> bool) (f : Transaction -> Q)
      (df : DataFrame) :
  (forall r, In r df -> (0 <= f r)%Q) -> (0 <= Qsum_where p f df)%Q.
Proof.
  induction df as [| r df IH]; intros Hall; cbn [Qsum_where]; [lra |].
  assert (Hr : (0 <= f r)%Q) by (apply Hall; now left).
  assert (Hrest : (0 <= Qsum_where p f df)%Q).
  { apply IH. intros r' Hr'. apply Hall. now right. }
  destruct (p r); lra.
Qed.

(** X11: On a generated ledger the fraud amount lies between zero and the
    total amount. *)
Theorem fraud_amount_bounded {G : Type} `{RandomStateOk G}
        (clk : clock) (n : Z) (df : DataFrame) :
  generate_fraud_data clk n = Ok df ->
  (0 <= fraud_amount df /\ fraud_amount df <= total_amount df)%Q.
Proof.
  intros Hg.
  assert (Hnn : forall r, In r df -> (0 <= amount r)%Q).
  { intros r Hr. now destruct (generated_row_ranges clk n df r Hg Hr). }
  pose proof (Qsum_where_nonneg is_fraud amount df Hnn) as Hf.
  pose proof (Qsum_where_nonneg (fun r => negb (is_fraud r)) amount df Hnn) as Hl.
  pose proof (Qsum_where_split is_fraud amount df) as Hs.
  unfold total_amount, fraud_amount.
  rewrite !Series_sum_Qsum, Qsum_filter. lra.
Qed.

Lemma fraud_amount_bounded_witness :
  (0 <= fraud_amount sample_ledger
   /\ fraud_amount sample_ledger <= total_amount sample_ledger)%Q.
Proof.
  exact (fraud_amount_bounded (G := Z) sample_clock 12 sample_ledger eq_refl).
Defined.

Lemma count_where_mono (p q : Transaction -> bool) (df : DataFrame) :
  (forall r, In r df -> p r = true -> q r = true) ->
  count_where p df <= count_where q df.
Proof.
  unfold count_where. induction df as [| r df IH]; intros Himp; cbn [filter];
    [lia |].
  assert (IH' : Z.of_nat (List.length (filter p df))
                <= Z.of_nat (List.length (filter q df))).
  { apply IH. intros r' Hr'. apply Himp. now right. }
  destruct (p r) eqn:Hp.
  - rewrite (Himp r (or_introl eq_refl) Hp). cbn [List.length]. lia.
  - destruct (q r); cbn [List.length]; lia.
Qed.

(** X12: The number of fraud cases shown never exceeds the number of records
    that meet the eligibility rule. *)
Theorem fraud_count_at_most_eligible {G : Type} `{RandomState G}
        (clk : clock) (n : Z) (df : DataFrame) :
  generate_fraud_data clk n = Ok df ->
  0 <= fraud_transactions df <= count_where eligible df
  /\ count_where eligible df <= total_transactions df.
Proof.
  intros Hg. unfold fraud_transactions, total_transactions.
  rewrite bool_sum_count.
  pose proof (count_where_le_length is_fraud df) as Hf.
  pose proof (count_where_le_length eligible df) as He.
  split; [split; [lia |] | lia].
  apply count_where_mono. intros r Hr Hfr.
  destruct (generate_fraud_data_In clk n df r Hg Hr) as (dates & i & _ & ->).
  cbn in Hfr. apply andb_prop in Hfr as [Hel _]. exact Hel.
Qed.

Lemma fraud_count_at_most_eligible_witness :
  0 <= fraud_transactions sample_ledger <= count_where eligible sample_ledger
  /\ count_where eligible sample_ledger <= total_transactions sample_ledger.
Proof.
  exact (fraud_count_at_most_eligible (G := Z) sample_clock 12 sample_ledger
           eq_refl).
Defined.

(** ** Daily series *)

Lemma count_where_ext (p q : Transaction -> bool) (df : DataFrame) :
  (forall r, p r = q r) -> count_where p df = count_where q df.
Proof.
  intros Hpq. unfold count_where. now rewrite (filter_ext p q Hpq).
Qed.

(** The groups of a predicate-restricted ledger add up to the number of
    rows that satisfy the predicate. *)
Lemma group_sizes_sum_where (p : Transaction -> bool) (df : DataFrame) :
  Zsum (map (fun k => count_where (fun r => on_day k r && p r) df)
            (group_keys (map (fun r => dt_date (date r)) df)))
  = count_where p df.
Proof.
  rewrite (map_ext _ (fun k => count_where (on_day k) (filter p df))).
  - unfold count_where at 2. apply group_sizes_sum.
    + apply sorted_lt_NoDup, group_keys_sorted.
    + intros r Hr. apply filter_In in Hr as [Hr _].
      apply group_keys_In, in_map_iff. now exists r.
  - intros k. rewrite count_where_filter. apply count_where_ext.
    intros r. apply andb_comm.
Qed.

Lemma Zsum_ge_length (f : Z -> Z) (ks : list Z) :
  (forall k, In k ks -> 1 <= f k) ->
  Z.of_nat (List.length ks) <= Zsum (map f ks).
Proof.
  induction ks as [| k ks IH]; intros Hall; cbn [map Zsum fold_right List.length];
    [lia |].
  fold (Zsum (map f ks)).
  assert (1 <= f k) by (apply Hall; now left).
  assert (Z.of_nat (List.length ks) <= Zsum (map f ks)).
  { apply IH. intros k' Hk'. apply Hall. now right. }
  lia.
Qed.

(** X13: The daily fraud counts add up to the fraud count of the metrics; on
    each day the fraud count lies between zero and the record count and
    the rate is a finite percentage between 0 and 100; the series has at
    most as many entries as the ledger has rows, none for an empty
    ledger. *)
Theorem daily_fraud_totals (df : DataFrame) :
  Zsum (map daily_is_fraud (daily_fraud df)) = fraud_transactions df
  /\ (forall d, In d (daily_fraud df) ->
        0 <= daily_is_fraud d <= daily_transaction_id d
        /\ finite_between 0 100 (daily_fraud_rate d))
  /\ (List.length (daily_fraud df) <= List.length df)%nat
  /\ (df = [] -> daily_fraud df = []).
Proof.
  set (keys := group_keys (map (fun r => dt_date (date r)) df)).
  assert (Hkeys : forall k, In k keys -> 1 <= count_where (on_day k) df).
  { intros k Hk. apply group_keys_In, in_map_iff in Hk as (r & Hday & Hr).
    assert (Hin : In r (filter (on_day k) df)).
    { apply filter_In. split; [exact Hr |]. unfold on_day. now apply Z.eqb_eq. }
    unfold count_where. destruct (filter (on_day k) df); [contradiction |].
    cbn [List.length]. lia. }
  split; [| split; [| split]].
  - unfold daily_fraud. rewrite map_map. cbn [daily_is_fraud].
    rewrite (map_ext _ (fun k => count_where (fun r => on_day k r && is_fraud r) df)).
    + unfold fraud_transactions. rewrite bool_sum_count.
      apply group_sizes_sum_where.
    + intros k. now rewrite bool_sum_count, count_where_filter.
  - intros d Hd. unfold daily_fraud in Hd.
    apply in_map_iff in Hd as (k & <- & Hk). fold keys in Hk.
    cbn [daily_transaction_id daily_is_fraud daily_fraud_rate].
    rewrite length_map, bool_sum_count. fold (count_where (on_day k) df).
    pose proof (Hkeys k Hk) as Hpos.
    assert (Hle : 0 <= count_where is_fraud (filter (on_day k) df)
                  <= count_where (on_day k) df).
    { pose proof (count_where_le_length is_fraud (filter (on_day k) df)) as Hc.
      unfold count_where at 3. exact Hc. }
    split; [exact Hle |].
    destruct (rate_is_nearest_hundredth _ _ Hle ltac:(lia)) as (h & Hh & -> & _).
    cbn [finite_between].
    assert (Hq : (0 <= h # 100 /\ h # 100 <= inject_Z 100)%Q).
    { unfold Qle. cbn [Qnum Qden inject_Z]. lia. }
    split.
    + apply to_float64_nonneg. apply Hq.
    + apply (to_float64_le_Z _ 100); [apply Hq | apply Hq | lia].
  - unfold daily_fraud. rewrite length_map. fold keys.
    pose proof (Zsum_ge_length (fun k => count_where (on_day k) df) keys Hkeys) as Hge.
    unfold keys in Hge at 2. rewrite group_sizes_sum in Hge.
    + lia.
    + apply sorted_lt_NoDup, group_keys_sorted.
    + intros r Hr. apply group_keys_In, in_map_iff. now exists r.
  - intros ->. reflexivity.
Qed.

Lemma sorted_in_range_length (a b : Z) (l : list Z) :
  StronglySorted Z.lt l -> Forall (fun x => a <= x <= b) l ->
  l = [] \/ Z.of_nat (List.length l) <= b - a + 1.
Proof.
  intros Hs. revert a. induction Hs as [| x l Hs IH Hall]; intros a Hr;
    [now left | right].
  inversion Hr as [| ? ? Hx Hrest]; subst.
  assert (Hrest' : Forall (fun y => x + 1 <= y <= b) l).
  { rewrite Forall_forall in *. intros y Hy.
    specialize (Hall y Hy). specialize (Hrest y Hy). lia. }
  destruct (IH (x + 1) Hrest') as [-> | Hlen]; cbn [List.length]; lia.
Qed.

Lemma dt_date_mono (s t : Z) : s <= t -> dt_date s <= dt_date t.
Proof.
  intros Hst. unfold dt_date. apply Z.div_le_mono; [reflexivity | exact Hst].
Qed.

(** X14: The daily series of a generated ledger has entries only for days of
    the window, so no more entries than the window has days: at most 31
    when the two clock readings coincide. *)
Theorem daily_days_in_window {G : Type} `{RandomState G}
        (clk : clock) (n : Z) (df : DataFrame) :
  0 <= window_span clk ->
  generate_fraud_data clk n = Ok df ->
  (forall d, In d (daily_fraud df) ->
     dt_date (window_start clk) <= daily_date d <= dt_date (now_end clk))
  /\ Z.of_nat (List.length (daily_fraud df))
     <= dt_date (now_end clk) - dt_date (window_start clk) + 1
  /\ (now_end clk = now_start clk ->
      (List.length (daily_fraud df) <= 31)%nat).
Proof.
  intros Hspan Hg.
  assert (Hdays : Forall (fun k => dt_date (window_start clk) <= k
                                   <= dt_date (now_end clk))
                         (map daily_date (daily_fraud df))).
  { rewrite daily_fraud_dates. apply Forall_forall. intros k Hk.
    apply group_keys_In, in_map_iff in Hk as (r & <- & Hr).
    pose proof (generated_date_bounds clk n df r Hspan Hg Hr) as Hb.
    split; apply dt_date_mono; lia. }
  assert (Hlen : Z.of_nat (List.length (daily_fraud df))
                 <= dt_date (now_end clk) - dt_date (window_start clk) + 1).
  { pose proof (sorted_in_range_length _ _ _
                  (eq_ind_r (StronglySorted Z.lt) (group_keys_sorted _)
                            (daily_fraud_dates df)) Hdays) as [Hnil | Hle].
    - apply (f_equal (@List.length Z)) in Hnil. rewrite length_map in Hnil.
      cbn [List.length] in Hnil.
      assert (dt_date (window_start clk) <= dt_date (now_end clk)).
      { apply dt_date_mono. unfold window_span in Hspan. lia. }
      lia.
    - now rewrite length_map in Hle. }
  split; [| split; [exact Hlen |]].
  - intros d Hd. rewrite Forall_forall in Hdays. apply Hdays. now apply in_map.
  - intros Hsame.
    assert (Hd30 : dt_date (window_start clk) = dt_date (now_end clk) - 30).
    { unfold window_start, timedelta_days, dt_date. rewrite Hsame.
      replace (now_start clk - 30 * ns_per_day)
        with (now_start clk + (- 30) * ns_per_day) by lia.
      rewrite Z.div_add by (unfold ns_per_day; lia). lia. }
    lia.
Qed.

Lemma daily_days_in_window_witness :
  0 <= window_span sample_clock
  /\ (List.length (daily_fraud sample_ledger) <= 31)%nat.
Proof.
  assert (Hspan : 0 <= window_span sample_clock) by (vm_compute; discriminate).
  split; [exact Hspan |].
  exact (proj2 (proj2 (daily_days_in_window (G := Z) sample_clock 12 sample_ledger
                         Hspan eq_refl)) eq_refl).
Defined.

(** ** Labels, scores and the first row of the table *)

(** X15: On a generated ledger the label can be read off the score: a record
    is fraudulent exactly when its score is at least 0.7, so the fraud
    count of the metrics is the number of such scores. *)
Theorem score_separates_labels {G : Type} `{RandomStateOk G}
        (clk : clock) (n : Z) (df : DataFrame) :
  generate_fraud_data clk n = Ok df ->
  (forall r, In r df -> is_fraud r = Qle_bool (7 # 10) (risk_score r))
  /\ fraud_transactions df
     = count_where (fun r => Qle_bool (7 # 10) (risk_score r)) df.
Proof.
  intros Hg.
  assert (Hsep : forall r, In r df -> is_fraud r = Qle_bool (7 # 10) (risk_score r)).
  { intros r Hr.
    destruct (generated_row_ranges clk n df r Hg Hr) as (_ & Hhi & Hlo).
    destruct (is_fraud r).
    - symmetry. apply Qle_bool_iff. now apply Hhi.
    - specialize (Hlo eq_refl).
      destruct (Qle_bool (7 # 10) (risk_score r)) eqn:Hb; [| reflexivity].
      apply Qle_bool_iff in Hb. lra. }
  split; [exact Hsep |].
  unfold fraud_transactions. rewrite bool_sum_count.
  apply Z.le_antisymm; apply count_where_mono; intros r Hr Hp.
  - now rewrite <- Hsep.
  - now rewrite Hsep.
Qed.

Lemma score_separates_labels_witness :
  fraud_transactions sample_ledger
  = count_where (fun r => Qle_bool (7 # 10) (risk_score r)) sample_ledger.
Proof.
  exact (proj2 (score_separates_labels (G := Z) sample_clock 12 sample_ledger
                  eq_refl)).
Defined.

Lemma nth_error_with_index (df : DataFrame) (s i : nat) (r : Transaction) :
  nth_error df i = Some r ->
  In ((s + i)%nat, r) (combine (seq s (List.length df)) df).
Proof.
  revert s i. induction df as [| r' df IH]; intros s i Hn.
  - destruct i; discriminate Hn.
  - cbn [List.length seq combine]. destruct i as [| i]; cbn in Hn.
    + injection Hn as ->. left. f_equal. lia.
    + right. replace (s + S i)%nat with (S s + i)%nat by lia. now apply IH.
Qed.

(** X16: The first row of the table carries the highest risk score of the
    ledger, whatever the number of rows kept, as long as one is kept and
    the ledger is not empty. *)
Theorem first_row_is_maximum (k : nat) (df : DataFrame) :
  df <> [] ->
  exists x rest,
    nlargest (S k) df = x :: rest
    /\ In (snd x) df
    /\ (forall r, In r df -> (risk_score r <= score x)%Q).
Proof.
  intros Hne.
  destruct (nlargest_split (S k) df) as (Hsorted & Hsub & Hcross).
  destruct (nlargest (S k) df) as [| x rest] eqn:Htop.
  - exfalso.
    assert (Hlen : List.length (nlargest (S k) df) = 0%nat) by now rewrite Htop.
    unfold nlargest in Hlen.
    rewrite length_firstn, (Permutation_length (sort_desc_Permutation _)),
      with_index_length in Hlen.
    destruct df; [congruence | cbn [List.length] in Hlen; lia].
  - exists x, rest. split; [reflexivity |]. split.
    + apply with_index_In_df, Hsub. now left.
    + intros r Hr. apply In_nth_error in Hr as (i & Hi).
      pose proof (nth_error_with_index df 0 i r Hi) as Hin.
      fold (with_index df) in Hin.
      destruct (Hcross _ Hin) as [[Heq | Hrest] | Hafter].
      * rewrite Heq. unfold score. cbn [snd]. lra.
      * inversion Hsorted as [| ? ? _ Hall]; subst.
        rewrite Forall_forall in Hall.
        pose proof (ranked_before_score _ _ (Hall _ Hrest)) as Hs.
        unfold score in Hs at 1. cbn [snd] in Hs. exact Hs.
      * pose proof (ranked_before_score _ _ (Hafter x (or_introl eq_refl))) as Hs.
        unfold score in Hs at 1. cbn [snd] in Hs. exact Hs.
Qed.

Lemma first_row_is_maximum_witness :
  three_rows <> []
  /\ exists x rest,
       nlargest 10 three_rows = x :: rest
       /\ In (snd x) three_rows
       /\ (forall r, In r three_rows -> (risk_score r <= score x)%Q).
Proof.
  assert (Hne : three_rows <> []) by discriminate.
  split; [exact Hne |].
  exact (first_row_is_maximum 9 three_rows Hne).
Defined.

(** ** The dashboard of the module *)

(** X17: Line 47 onwards: with the size 500 that the module fixes, whatever
    the clock and the generator, the dashboard is built: 500 transactions,
    between 0 and 500 fraud cases, a finite fraud rate between 0 and 100
    and a finite mean, a table of ten rows, two histograms that hold 500
    amounts together, and daily counts that add up to 500. *)
Theorem module_dashboard {G : Type} `{RandomState G} (clk : clock) :
  exists d,
    dashboard clk 500 = Ok d
    /\ shown_total_transactions d = 500
    /\ 0 <= shown_fraud_transactions d <= 500
    /\ finite_between 0 100 (shown_fraud_rate d)
    /\ (exists q, shown_mean_amount d = Finite q)
    /\ List.length (shown_table d) = 10%nat
    /\ Z.of_nat (List.length (shown_legit_amounts d))
       + Z.of_nat (List.length (shown_fraud_amounts d)) = 500
    /\ Zsum (map daily_transaction_id (shown_daily_fraud d)) = 500.
Proof.
  destruct (generate_fraud_data_ok clk 500 ltac:(lia)) as (df & Hg & Hlen).
  exists (aggregate df). unfold dashboard. rewrite Hg. clear Hg.
  cbn [aggregate shown_total_transactions shown_fraud_transactions
       shown_fraud_rate shown_mean_amount shown_table shown_legit_amounts
       shown_fraud_amounts shown_daily_fraud].
  assert (Hcount : 0 <= fraud_transactions df <= 500).
  { unfold fraud_transactions. rewrite bool_sum_count.
    pose proof (count_where_le_length is_fraud df). lia. }
  split; [reflexivity |].
  split; [exact Hlen |].
  split; [exact Hcount |].
  split.
  { unfold fraud_rate, np_true_divide, total_transactions. rewrite Hlen.
    cbn [Z.eqb float64_mul finite_between].
    apply percentage_bounds; lia. }
  split.
  { unfold mean_amount, Series_mean.
    destruct (map amount df) as [| a l] eqn:E; [| eauto].
    apply (f_equal (@List.length Q)) in E. rewrite length_map in E.
    cbn [List.length] in E. lia. }
  split.
  { unfold high_risk_table, nlargest.
    rewrite length_map, length_firstn,
      (Permutation_length (sort_desc_Permutation _)), with_index_length.
    lia. }
  split.
  { unfold legit_amounts, fraud_amounts.
    rewrite !length_map, <- Nat2Z.inj_add, <- length_app.
    rewrite (Permutation_length (legit_fraud_Permutation df)). exact Hlen. }
  rewrite daily_fraud_counts, <- Hlen. apply group_sizes_sum.
  - apply sorted_lt_NoDup, group_keys_sorted.
  - intros r Hr. apply group_keys_In, in_map_iff.
    exists r. split; [reflexivity | exact Hr].
Qed.

(** ** The transactions card *)

Definition no_comma (c : ascii) : Prop := Ascii.eqb c ","%char = false.

Lemma group3_strip_bounded (n : nat) (l : list ascii) :
  (List.length l <= n)%nat -> Forall no_comma l ->
  filter (fun c => negb (Ascii.eqb c ","%char)) (group3 l) = l.
Proof.
  revert l. induction n as [| n IH]; intros l Hlen Hall.
  - destruct l; [reflexivity | cbn [List.length] in Hlen; lia].
  - assert (Hid : filter (fun c => negb (Ascii.eqb c ","%char)) l = l).
    { clear - Hall. induction Hall as [| c l Hc _ IHl]; [reflexivity |].
      cbn [filter]. unfold no_comma in Hc. rewrite Hc. cbn [negb]. now rewrite IHl. }
    destruct l as [| a [| b [| c [| d rest]]]]; try exact Hid.
    change (group3 (a :: b :: c :: d :: rest))
      with (a :: b :: c :: ","%char :: group3 (d :: rest)).
    inversion Hall as [| ? ? Ha Hall1]; subst.
    inversion Hall1 as [| ? ? Hb Hall2]; subst.
    inversion Hall2 as [| ? ? Hc Hall3]; subst.
    unfold no_comma in Ha, Hb, Hc.
    set (tail := group3 (d :: rest)).
    cbn [filter]. rewrite Ha, Hb, Hc, Ascii.eqb_refl. cbn [negb].
    do 3 f_equal. subst tail. apply IH; [cbn [List.length] in *; lia | exact Hall3].
Qed.

Lemma group3_short (l : list ascii) : (List.length l <= 3)%nat -> group3 l = l.
Proof.
  destruct l as [| a [| b [| c [| d rest]]]]; try reflexivity.
  cbn [List.length]. lia.
Qed.

Lemma uint_digits_no_comma (d : Decimal.uint) :
  Forall no_comma (list_ascii_of_string (NilEmpty.string_of_uint d)).
Proof.
  induction d; cbn [NilEmpty.string_of_uint list_ascii_of_string];
    constructor; try assumption; reflexivity.
Qed.

Lemma decimal_no_comma (n : nat) :
  Forall no_comma (list_ascii_of_string (decimal n)).
Proof.
  unfold decimal. destruct (Nat.to_uint n) eqn:E; cbn [NilZero.string_of_uint].
  1: { repeat constructor. }
  all: apply uint_digits_no_comma.
Qed.

Lemma Forall_rev_no_comma (l : list ascii) :
  Forall no_comma l -> Forall no_comma (rev l).
Proof.
  intros Hall. apply Forall_forall. intros c Hc. apply in_rev in Hc.
  rewrite Forall_forall in Hall. now apply Hall.
Qed.

Lemma length_list_ascii (s : string) :
  List.length (list_ascii_of_string s) = String.length s.
Proof.
  induction s as [| c s IH]; [reflexivity |].
  cbn [String.length list_ascii_of_string List.length]. now rewrite IH.
Qed.

Lemma no_comma_neq (c : ascii) : no_comma c -> c <> ","%char.
Proof. unfold no_comma. intros Hc ->. discriminate Hc. Qed.

(** In a grouped numeral, read from its last digit, the commas are at
    positions 3, 7, 11, ... and nowhere else. *)
Lemma group3_commas (n : nat) (l : list ascii) (j : nat) :
  (List.length l <= n)%nat -> Forall no_comma l ->
  (j < List.length (group3 l))%nat ->
  (nth j (group3 l) "0"%char = ","%char <-> j mod 4 = 3)%nat.
Proof.
  revert l j. induction n as [| n IH]; intros l j Hlen Hall Hj.
  - destruct l; cbn [group3 List.length] in *; lia.
  - assert (Hshort : (List.length l <= 3)%nat ->
                     (nth j (group3 l) "0"%char = ","%char <-> j mod 4 = 3)%nat).
    { intros Hl. rewrite group3_short in * by exact Hl.
      assert (Hj3 : (j < 3)%nat) by lia.
      split.
      - intros Heq. exfalso.
        assert (Hin : In (nth j l "0"%char) l) by (apply nth_In; exact Hj).
        rewrite Forall_forall in Hall.
        exact (no_comma_neq _ (Hall _ Hin) Heq).
      - intros Hm. exfalso.
        destruct j as [| [| [| j]]]; cbn in Hm; try discriminate Hm. lia. }
    destruct l as [| a [| b [| c [| d rest]]]];
      try (apply Hshort; cbn [List.length]; lia).
    change (group3 (a :: b :: c :: d :: rest))
      with (a :: b :: c :: ","%char :: group3 (d :: rest)) in *.
    inversion Hall as [| ? ? Ha Hall1]; subst.
    inversion Hall1 as [| ? ? Hb Hall2]; subst.
    inversion Hall2 as [| ? ? Hc Hall3]; subst.
    destruct j as [| [| [| [| j]]]]; cbn [nth].
    + split; [intros Heq; exfalso; exact (no_comma_neq _ Ha Heq)
             | intros Hm; cbn in Hm; discriminate Hm].
    + split; [intros Heq; exfalso; exact (no_comma_neq _ Hb Heq)
             | intros Hm; cbn in Hm; discriminate Hm].
    + split; [intros Heq; exfalso; exact (no_comma_neq _ Hc Heq)
             | intros Hm; cbn in Hm; discriminate Hm].
    + split; reflexivity.
    + replace (S (S (S (S j)))) with (j + 1 * 4)%nat by lia.
      rewrite Nat.Div0.mod_add.
      apply IH; [cbn [List.length] in *; lia | exact Hall3 |].
      cbn [List.length] in Hj. lia.
Qed.

(** A grouped numeral has no comma in front. *)
Lemma group3_length_mod (n : nat) (l : list ascii) :
  (List.length l <= n)%nat -> l <> [] ->
  (List.length (group3 l) mod 4 <> 0)%nat.
Proof.
  revert l. induction n as [| n IH]; intros l Hlen Hne.
  - destruct l; [congruence | cbn [List.length] in Hlen; lia].
  - destruct l as [| a [| b [| c [| d rest]]]];
      [congruence | cbn; lia | cbn; lia | cbn; lia |].
    change (group3 (a :: b :: c :: d :: rest))
      with (a :: b :: c :: ","%char :: group3 (d :: rest)).
    cbn [List.length].
    replace (S (S (S (S (List.length (group3 (d :: rest)))))))
      with (List.length (group3 (d :: rest)) + 1 * 4)%nat by lia.
    rewrite Nat.Div0.mod_add.
    apply IH; [cbn [List.length] in *; lia | discriminate].
Qed.

Lemma decimal_nonempty (n : nat) : decimal n <> ""%string.
Proof.
  unfold decimal. destruct (Nat.to_uint n) eqn:E; cbn [NilZero.string_of_uint];
    try discriminate.
Qed.

(** X18: Line 75: in the formatted count, read from its last character, the
    commas stand at positions 3, 7, 11, ... (after every three digits) and
    nowhere else, and the first character is not a comma; taking the
    commas out gives back the decimal numeral, which reads back as the
    count; a count below 1000 is shown without any comma. *)
Theorem format_thousands_round_trip (n : nat) :
  strip_commas (format_thousands n) = decimal n
  /\ read_decimal (strip_commas (format_thousands n)) = Some n
  /\ (forall j, (j < String.length (format_thousands n))%nat ->
        (nth j (rev (list_ascii_of_string (format_thousands n))) "0"%char
         = ","%char
         <-> j mod 4 = 3)%nat)
  /\ (0 < String.length (format_thousands n))%nat
  /\ nth (String.length (format_thousands n) - 1)
         (rev (list_ascii_of_string (format_thousands n))) "0"%char
     <> ","%char
  /\ (String.length (decimal n) <= 3 -> format_thousands n = decimal n)%nat
  /\ (forall df, List.length df = n ->
        read_decimal (strip_commas (transactions_card df)) = Some n).
Proof.
  assert (Hstrip : strip_commas (format_thousands n) = decimal n).
  { unfold strip_commas, format_thousands.
    rewrite list_ascii_of_string_of_list_ascii, filter_rev.
    rewrite (group3_strip_bounded _ _ (Nat.le_refl _)
               (Forall_rev_no_comma _ (decimal_no_comma n))).
    rewrite rev_involutive. apply string_of_list_ascii_of_string. }
  set (digits := rev (list_ascii_of_string (decimal n))).
  assert (Hdigits : Forall no_comma digits)
    by (apply Forall_rev_no_comma, decimal_no_comma).
  assert (Hne : digits <> []).
  { unfold digits. intros Hnil.
    apply (f_equal (@List.length ascii)) in Hnil.
    rewrite length_rev, length_list_ascii in Hnil. cbn [List.length] in Hnil.
    pose proof (decimal_nonempty n) as Hd.
    destruct (decimal n); [congruence | cbn [String.length] in Hnil; lia]. }
  assert (Hrev : rev (list_ascii_of_string (format_thousands n)) = group3 digits).
  { unfold format_thousands. fold digits.
    now rewrite list_ascii_of_string_of_list_ascii, rev_involutive. }
  assert (Hlen : String.length (format_thousands n) = List.length (group3 digits)).
  { now rewrite <- length_list_ascii, <- (length_rev (list_ascii_of_string _)), Hrev. }
  pose proof (group3_length_mod _ digits (Nat.le_refl _) Hne) as Hmod.
  assert (Hpos : (0 < List.length (group3 digits))%nat).
  { destruct (group3 digits); [cbn in Hmod; congruence | cbn [List.length]; lia]. }
  split; [exact Hstrip |]. split; [| split; [| split; [| split; [| split]]]].
  - rewrite Hstrip. apply read_decimal_decimal.
  - intros j Hj. rewrite Hrev. rewrite Hlen in Hj.
    exact (group3_commas _ digits j (Nat.le_refl _) Hdigits Hj).
  - rewrite Hlen. exact Hpos.
  - rewrite Hrev, Hlen. intros Hcomma.
    apply (group3_commas _ digits _ (Nat.le_refl _) Hdigits) in Hcomma; [| lia].
    set (len := List.length (group3 digits)) in *.
    assert (Hlen4 : (len = (len - 1) + 1)%nat) by lia.
    pose proof (Nat.div_mod_eq (len - 1) 4) as H1.
    pose proof (Nat.div_mod_eq len 4) as H2.
    pose proof (Nat.mod_upper_bound len 4 ltac:(lia)) as H3.
    lia.
  - intros Hlen3. unfold format_thousands.
    rewrite group3_short.
    + rewrite rev_involutive. apply string_of_list_ascii_of_string.
    + rewrite length_rev, length_list_ascii. exact Hlen3.
  - intros df Hdf. unfold transactions_card, total_transactions.
    rewrite Nat2Z.id, Hdf, Hstrip. apply read_decimal_decimal.
Qed.
